(** * convert.py: paragraph segmentation and run formatting

    A shallow embedding of [src/convert.py]: the three text helpers of
    [TextProcessor], the run merger [FormatProcessor.process_runs], the
    paragraph segmenter [DocumentProcessor.process_paragraph] and the
    per-document and batch loops of [BatchConverter].

    Text is a list of characters.  The alphabet is ASCII: on the code
    points 0..127 the character classes below are the ones Python uses for
    [str.split], [str.strip], [str.isspace], [str.upper] and for [\s], [\w]
    and [\b] in [re]; the remaining values of the type [ascii] are taken as
    caseless symbols that are neither whitespace nor word characters. *)

From Stdlib Require Import String Ascii List Bool Arith Lia.
Import ListNotations.
Local Open Scope list_scope.
Local Open Scope bool_scope.

(* ================================================================== *)
(** ** Python's [str] primitives *)

Module Py.

Definition str := list ascii.

(** A literal: [lit "abc"] is the text abc. *)
Definition lit (s : string) : str := list_ascii_of_string s.

(** The double quote character (code 34). *)
Definition dquote : ascii := "034"%char.

Definition code_in (lo hi : nat) (c : ascii) : bool :=
  (lo <=? nat_of_ascii c) && (nat_of_ascii c <=? hi).

(** Whitespace: TAB, LF, VT, FF, CR (9..13), FS, GS, RS, US (28..31) and
    the space (32). *)
Definition is_space (c : ascii) : bool := code_in 9 13 c || code_in 28 32 c.

(** [\w]: digits, letters and the underscore. *)
Definition is_word (c : ascii) : bool :=
  code_in 48 57 c || code_in 65 90 c || code_in 97 122 c || (c =? "_")%char.

Definition upper_char (c : ascii) : ascii :=
  if code_in 97 122 c then ascii_of_nat (nat_of_ascii c - 32) else c.

(** [s.upper()] *)
Definition upper (s : str) : str := map upper_char s.

Fixpoint str_eqb (a b : str) : bool :=
  match a, b with
  | [], [] => true
  | x :: a', y :: b' => (x =? y)%char && str_eqb a' b'
  | _, _ => false
  end.

(** [s.lstrip()] *)
Fixpoint lstrip (s : str) : str :=
  match s with
  | [] => []
  | c :: s' => if is_space c then lstrip s' else s
  end.

(** [s.rstrip()]: a character stays unless it is whitespace and nothing
    but whitespace follows it. *)
Fixpoint rstrip (s : str) : str :=
  match s with
  | [] => []
  | c :: s' =>
      match rstrip s' with
      | [] => if is_space c then [] else [c]
      | t => c :: t
      end
  end.

(** [s.strip()] *)
Definition strip (s : str) : str := rstrip (lstrip s).

(** [s.isspace()]: at least one character, all of them whitespace. *)
Definition isspace (s : str) : bool :=
  match s with
  | [] => false
  | _ :: _ => forallb is_space s
  end.

(** [s.split()]: the maximal runs of non-whitespace characters. *)
Fixpoint split (s : str) : list str :=
  match s with
  | [] => []
  | c :: s' =>
      if is_space c then split s'
      else match s' with
           | [] => [[c]]
           | c' :: _ =>
               if is_space c' then [c] :: split s'
               else match split s' with
                    | w :: ws => (c :: w) :: ws
                    | [] => [[c]]
                    end
           end
  end.

(** [sep.join(words)] *)
Fixpoint join (sep : str) (words : list str) : str :=
  match words with
  | [] => []
  | [w] => w
  | w :: ws => w ++ sep ++ join sep ws
  end.

(** [s.startswith(prefix)] *)
Fixpoint startswith (prefix s : str) : bool :=
  match prefix, s with
  | [], _ => true
  | _ :: _, [] => false
  | a :: p', b :: s' => (a =? b)%char && startswith p' s'
  end.

(** [s.endswith(suffix)] *)
Definition endswith (s suffix : str) : bool :=
  startswith (rev suffix) (rev s).

(** [sub in s] *)
Fixpoint contains (sub s : str) : bool :=
  startswith sub s ||
  match s with
  | [] => false
  | _ :: s' => contains sub s'
  end.

(** Truth value of a string or of a list: non-empty. *)
Definition truthy {A : Type} (l : list A) : bool :=
  match l with [] => false | _ :: _ => true end.

End Py.

(* ================================================================== *)
(** ** The regular-expression substitutions of the source

    Each [re.sub] of [convert.py] is written as the left-to-right scan the
    regex engine performs for that pattern. *)

Module Re.
Import Py.

(** Replace every maximal run of characters satisfying [P] by the one
    character [r]; [in_run] tells that the previous character belonged to
    a run.  This is the scan of [re.sub(r'\s+', ' ', s)], with
    [P := is_space] and a space for [r]. *)
Fixpoint squeeze_from (P : ascii -> bool) (r : ascii) (in_run : bool)
    (s : str) : str :=
  match s with
  | [] => []
  | c :: s' =>
      if P c then
        if in_run then squeeze_from P r true s'
        else r :: squeeze_from P r true s'
      else c :: squeeze_from P r false s'
  end.

Definition squeeze (P : ascii -> bool) (r : ascii) (s : str) : str :=
  squeeze_from P r false s.

(** [re.sub(r'\s+', ' ', s)] *)
Definition sub_spaces (s : str) : str := squeeze is_space " "%char s.

(** [re.sub(c + '{2,}', c, s)]: a [c] followed by another [c] starts a
    match, which is replaced by one [c]; [in_match] tells that the scan is
    inside a match, whose remaining characters are deleted.  A single [c]
    is not matched and stays. *)
Fixpoint sub_repeated_from (c : ascii) (in_match : bool) (s : str) : str :=
  match s with
  | [] => []
  | x :: s' =>
      if (c =? x)%char then
        if in_match then sub_repeated_from c true s'
        else match s' with
             | y :: _ =>
                 if (c =? y)%char then c :: sub_repeated_from c true s'
                 else x :: sub_repeated_from c false s'
             | [] => [x]
             end
      else x :: sub_repeated_from c false s'
  end.

Definition sub_repeated (c : ascii) (s : str) : str :=
  sub_repeated_from c false s.

Definition is_label_punct (c : ascii) : bool :=
  (c =? ",")%char || (c =? ":")%char.

(** Drop the trailing run of [,] and [:]. *)
Fixpoint drop_trailing_punct (s : str) : str :=
  match s with
  | [] => []
  | c :: s' =>
      match drop_trailing_punct s' with
      | [] => if is_label_punct c then [] else [c]
      | t => c :: t
      end
  end.

Definition newline : ascii := "010"%char.

(** [re.sub(r'[,:]+$', '', s)]: [$] matches at the end of the string and
    also just before a newline that ends the string. *)
Definition sub_trailing_punct (s : str) : str :=
  match rev s with
  | c :: t =>
      if (c =? newline)%char
      then drop_trailing_punct (rev t) ++ [newline]
      else drop_trailing_punct s
  | [] => []
  end.

(** The alternatives of the Roman-numeral patterns, in the order of the
    source. *)
Definition roman_tokens : list str :=
  map lit ["I"; "II"; "III"; "IV"; "V"; "VI"; "VII"; "VIII"; "IX"; "X"]%string.

(** [re.match(r'^(I|II|III|IV|V|VI|VII|VIII|IX|X)$', s)] finds a match:
    [s] is one of the alternatives, possibly followed by one final
    newline. *)
Definition match_roman (s : str) : bool :=
  existsb (fun t => str_eqb s t || str_eqb s (t ++ [newline])) roman_tokens.

(** The first alternative that occurs at the head of [s] and is followed
    by a word boundary ([\b]: the end of the text or a non-word
    character). *)
Definition boundary_after (n : nat) (s : str) : bool :=
  match skipn n s with
  | [] => true
  | c :: _ => negb (is_word c)
  end.

Fixpoint first_roman (tokens : list str) (s : str) : option nat :=
  match tokens with
  | [] => None
  | t :: ts =>
      if startswith t s && boundary_after (List.length t) s
      then Some (List.length t)
      else first_roman ts s
  end.

(** Length of the match of [(I|...|X)\b[:, ]?] at the head of [s]. *)
Definition roman_match (s : str) : option nat :=
  match first_roman roman_tokens s with
  | None => None
  | Some n =>
      match skipn n s with
      | c :: _ =>
          if (c =? ":")%char || (c =? ",")%char || (c =? " ")%char
          then Some (S n) else Some n
      | [] => Some n
      end
  end.

(** [re.sub(r'\b(I|II|III|IV|V|VI|VII|VIII|IX|X)\b[:, ]?', '', s)].
    [prev_word] tells whether the previous character of the subject is a
    word character, [skip] counts the characters of the current match that
    are still to be deleted. *)
Fixpoint sub_roman_from (prev_word : bool) (skip : nat) (s : str) : str :=
  match s with
  | [] => []
  | c :: s' =>
      match skip with
      | S k => sub_roman_from (is_word c) k s'
      | O =>
          match (if prev_word then None else roman_match s) with
          | Some n => sub_roman_from (is_word c) (n - 1) s'
          | None => c :: sub_roman_from (is_word c) 0 s'
          end
      end
  end.

Definition sub_roman (s : str) : str := sub_roman_from false 0 s.

(** Index of the first occurrence of [c]. *)
Fixpoint index_of (c : ascii) (s : str) : option nat :=
  match s with
  | [] => None
  | x :: s' => if (x =? c)%char then Some 0 else option_map S (index_of c s')
  end.

(** Length of the match of [<(?!/?span)[^>]+>] at the head of [s]: a [<]
    not followed by [span] or [/span], one or more characters other than
    [>], and the first [>]. *)
Definition tag_match (s : str) : option nat :=
  match s with
  | c :: rest =>
      if (c =? "<")%char then
        if startswith (lit "span") rest || startswith (lit "/span") rest
        then None
        else match index_of ">"%char rest with
             | Some (S k) => Some (S k + 2)
             | _ => None
             end
      else None
  | [] => None
  end.

(** [re.sub(r'<(?!/?span)[^>]+>', '', s)] *)
Fixpoint sub_tags_from (skip : nat) (s : str) : str :=
  match s with
  | [] => []
  | c :: s' =>
      match skip with
      | S k => sub_tags_from k s'
      | O =>
          match tag_match s with
          | Some n => sub_tags_from (n - 1) s'
          | None => c :: sub_tags_from 0 s'
          end
      end
  end.

Definition sub_tags (s : str) : str := sub_tags_from 0 s.

(** The lazy [.*?] followed by [</span>]: the offset of the first closing
    tag, provided no newline comes before it. *)
Fixpoint find_close (s : str) : option nat :=
  if startswith (lit "</span>") s then Some 0
  else match s with
       | [] => None
       | c :: s' =>
           if (c =? newline)%char then None else option_map S (find_close s')
       end.

(** Offset of group 3 in the match of [(<span[^>]*>)(.*?)(</span>)] at the
    head of [s]. *)
Definition span_match (s : str) : option nat :=
  if startswith (lit "<span") s then
    match index_of ">"%char (skipn 5 s) with
    | Some i =>
        match find_close (skipn (5 + i + 1) s) with
        | Some j => Some (5 + i + 1 + j)
        | None => None
        end
    | None => None
    end
  else None.

(** [re.sub(r'(<span[^>]*>)(.*?)(</span>)', rf'\1\2{p}\3', s, count=1)]:
    [p] is inserted in front of the closing tag of the leftmost match. *)
Fixpoint sub_first_span (p : str) (s : str) : str :=
  match span_match s with
  | Some k => firstn k s ++ p ++ skipn k s
  | None =>
      match s with
      | [] => []
      | c :: s' => c :: sub_first_span p s'
      end
  end.

End Re.

(* ================================================================== *)
(** ** class TextProcessor *)

Module TextProcessor.
Import Py Re.

Definition is_roman_numeral (text : str) : bool := match_roman (strip text).

Definition normalize_text (text : str) : str := strip (sub_spaces text).

Definition clean_first_word (word : str) : str :=
  strip (sub_trailing_punct word).

End TextProcessor.


(* ================================================================== *)
(** ** The document objects read by the converter

    A run of python-docx exposes its text and the two style flags (taken
    by their truth value); a paragraph exposes its plain text and its
    runs. *)

Module Run.
Record t := { text : Py.str; bold : bool; italic : bool }.
End Run.

Module Paragraph.
Record t := { text : Py.str; runs : list Run.t }.
End Paragraph.

(* ================================================================== *)
(** ** class FormatProcessor *)

Module FormatProcessor.
Import Py.

(** The three values of [run_format] other than [None]. *)
Inductive Format := BoldItalic | Bold | Italic.

Definition format_class (f : Format) : str :=
  match f with
  | BoldItalic => lit "bold italic"
  | Bold => lit "bold"
  | Italic => lit "italic"
  end.

Definition format_eqb (f g : Format) : bool :=
  match f, g with
  | BoldItalic, BoldItalic | Bold, Bold | Italic, Italic => true
  | _, _ => false
  end.

(** [run_format != current_format] *)
Definition format_differs (f g : option Format) : bool :=
  match f, g with
  | None, None => false
  | Some a, Some b => negb (format_eqb a b)
  | _, _ => true
  end.

Definition get_run_formatting (run : Run.t) : option Format :=
  if Run.bold run && Run.italic run then Some BoldItalic
  else if Run.bold run then Some Bold
  else if Run.italic run then Some Italic
  else None.

(** The text of a closed accumulator: wrapped in a span when its format
    is set. *)
Definition wrap (fmt : option Format) (t : str) : str :=
  match fmt with
  | Some f =>
      lit "<span class=" ++ dquote :: format_class f ++ dquote :: lit ">"
        ++ t ++ lit "</span>"
  | None => t
  end.

(** The local variables of [process_runs]. *)
Record State := {
  formatted_text : list str;
  current_format : option Format;
  current_text : list str;
  words_processed : nat
}.

Definition init : State :=
  {| formatted_text := []; current_format := None; current_text := [];
     words_processed := 0 |}.

(** [formatted_text] after the pending accumulator, if any, is closed. *)
Definition flush (st : State) : list str :=
  if truthy (current_text st)
  then formatted_text st ++ [wrap (current_format st) (concat (current_text st))]
  else formatted_text st.

(** Lines 74-86: close the accumulator on a change of format, then append
    the text. *)
Definition append_run (run_format : option Format) (run_text : str)
    (st : State) : State :=
  if format_differs run_format (current_format st) then
    {| formatted_text := flush st; current_format := run_format;
       current_text := [run_text]; words_processed := words_processed st |}
  else
    {| formatted_text := formatted_text st; current_format := current_format st;
       current_text := current_text st ++ [run_text];
       words_processed := words_processed st |}.

Definition set_words_processed (n : nat) (st : State) : State :=
  {| formatted_text := formatted_text st; current_format := current_format st;
     current_text := current_text st; words_processed := n |}.

(** One iteration of the loop over [paragraph.runs]. *)
Definition step (skip_words : nat) (st : State) (run : Run.t) : State :=
  let run_text := Run.text run in
  if negb (truthy (strip run_text)) then
    if truthy (current_text st) && isspace run_text then
      {| formatted_text := formatted_text st; current_format := current_format st;
         current_text := current_text st ++ [run_text];
         words_processed := words_processed st |}
    else st
  else if words_processed st <? skip_words then
    let words := split run_text in
    if List.length words + words_processed st <=? skip_words then
      set_words_processed (words_processed st + List.length words) st
    else
      let remaining_words := skip_words - words_processed st in
      append_run (get_run_formatting run)
        (join (lit " ") (skipn remaining_words words))
        (set_words_processed skip_words st)
  else append_run (get_run_formatting run) run_text st.

Definition run_loop (skip_words : nat) (runs : list Run.t) (st : State) : State :=
  fold_left (step skip_words) runs st.

Definition process_runs (paragraph : Paragraph.t) (skip_words : nat) : str :=
  concat (flush (run_loop skip_words (Paragraph.runs paragraph) init)).

End FormatProcessor.

(* ================================================================== *)
(** ** class DocumentProcessor *)

Module DocumentProcessor.
Import Py Re TextProcessor.

(** Lines 109-132: the values of [first_word], [skip_words] and
    [has_punctuation] for the words [w0 :: rest] of the paragraph. *)
Definition classify (w0 : str) (rest : list str) : str * nat * option str :=
  let first_word := clean_first_word (upper w0) in
  match rest with
  | second_word :: rest' =>
      let second_word_clean := clean_first_word second_word in
      if is_roman_numeral second_word_clean then
        let first_word := first_word ++ lit " " ++ second_word_clean in
        if endswith second_word (lit ":") then (first_word, 2, Some (lit ":"))
        else if endswith second_word (lit ",") then (first_word, 2, Some (lit ","))
        else match rest' with
             | w2 :: _ =>
                 if str_eqb w2 (lit ":") || str_eqb w2 (lit ",")
                 then (first_word, 3, Some w2)
                 else (first_word, 2, None)
             | [] => (first_word, 2, None)
             end
      else (first_word, 1, None)
  | [] =>
      if endswith w0 (lit ":") then (first_word, 1, Some (lit ":"))
      else if endswith w0 (lit ",") then (first_word, 1, Some (lit ","))
      else (first_word, 1, None)
  end.

(** Lines 138-145: the detected punctuation goes in front of the first
    closing span tag, or in front of the body when it has no span. *)
Definition reattach (has_punctuation : option str) (content : str) : str :=
  match has_punctuation with
  | Some p =>
      if truthy p then
        if contains (lit "<span") content then sub_first_span p content
        else p ++ lit " " ++ content
      else content
  | None => content
  end.

(** Line 136. *)
Definition sanitize (content : str) : str := sub_tags content.

(** Lines 147-149. *)
Definition normalize_body (content : str) : str :=
  sub_repeated ","%char (sub_repeated ":"%char (strip (sub_spaces content))).

(** Lines 135-149. *)
Definition post_process (has_punctuation : option str) (content : str) : str :=
  normalize_body (reattach has_punctuation (sanitize (sub_roman content))).

Definition process_paragraph (paragraph : Paragraph.t) : str * str :=
  let text := normalize_text (Paragraph.text paragraph) in
  match split text with
  | [] => ([], [])
  | w0 :: rest =>
      let '(first_word, skip_words, has_punctuation) := classify w0 rest in
      let formatted_content := FormatProcessor.process_runs paragraph skip_words in
      (first_word, post_process has_punctuation formatted_content)
  end.

(** The punctuation [process_paragraph] detects ([has_punctuation] at
    line 133), which the function does not return. *)
Definition detected_punctuation (paragraph : Paragraph.t) : option str :=
  match split (normalize_text (Paragraph.text paragraph)) with
  | [] => None
  | w0 :: rest => snd (classify w0 rest)
  end.

(** [skip_words] at line 134. *)
Definition skip_count (paragraph : Paragraph.t) : nat :=
  match split (normalize_text (Paragraph.text paragraph)) with
  | [] => 0
  | w0 :: rest => snd (fst (classify w0 rest))
  end.

End DocumentProcessor.


(* ================================================================== *)
(** ** class BatchConverter

    The worksheet is the map from (row, column) to the value written
    there.  What the environment decides is a field of the input file:
    whether [Document(doc_path)] returns the paragraphs or raises, and
    whether [wb.save] raises.  The column widths set at lines 204-215 are
    not cells and are not part of the sheet. *)

Module BatchConverter.
Import Py TextProcessor DocumentProcessor.

(** A call returns or raises an exception, given by its message. *)
Inductive outcome (A : Type) : Type :=
  | Returned (a : A)
  | Raised (e : str).
Arguments Returned {A} a.
Arguments Raised {A} e.

Inductive Cell := CInt (n : nat) | CStr (s : str).

Definition Sheet := nat -> nat -> option Cell.

Definition empty_sheet : Sheet := fun _ _ => None.

(** [ws.cell(row=row, column=column, value=value)] *)
Definition cell (row column : nat) (value : Cell) (ws : Sheet) : Sheet :=
  fun r c => if (r =? row) && (c =? column) then Some value else ws r c.

(** A file found in the input directory. *)
Record DocFile := {
  name : str;
  stem : str;
  document : outcome (list Paragraph.t);
  save_error : option str
}.

(** The records sent to the logger. *)
Inductive LogRecord :=
  | Started (doc : str)
  | Converted (doc : str) (rows : nat)
  | ConvertError (doc : str) (e : str)
  | FileFailed (doc : str) (e : str)
  | NoFiles
  | Found (n : nat)
  | AllDone
  | BatchError (e : str).

(** The log and the workbooks saved in the output directory. *)
Record World := { log : list LogRecord; output : list (str * Sheet) }.

Definition empty_world : World := {| log := []; output := [] |}.

Definition logged (r : LogRecord) (w : World) : World :=
  {| log := log w ++ [r]; output := output w |}.

Definition saved (path : str) (ws : Sheet) (w : World) : World :=
  {| log := log w; output := output w ++ [(path, ws)] |}.

Definition headers : list str :=
  map lit ["articleid"; "articlecat"; "articletitle"; "articleintrotext"]%string.

(** Lines 179-181: header [k] goes to row 1, column [k] (from 1). *)
Fixpoint write_headers (col : nat) (hs : list str) (ws : Sheet) : Sheet :=
  match hs with
  | [] => ws
  | h :: hs' => write_headers (S col) hs' (cell 1 col (CStr h) ws)
  end.

(** Lines 187-202: one paragraph, on the sheet, [row] and [article_id]. *)
Definition para_step (article_cat : str) (st : Sheet * nat * nat)
    (para : Paragraph.t) : Sheet * nat * nat :=
  let '(ws, row, article_id) := st in
  let text := normalize_text (Paragraph.text para) in
  if truthy text then
    let '(title, content) := process_paragraph para in
    if truthy title then
      let ws := cell row 1 (CInt article_id) ws in
      let ws := cell row 2 (CStr article_cat) ws in
      let ws := cell row 3 (CStr title) ws in
      let ws := cell row 4 (CStr (lit "<p>" ++ content ++ lit "</p>")) ws in
      (ws, row + 1, article_id + 1)
    else st
  else st.

(** Lines 175-202: the sheet, [row] and [article_id] after the loop. *)
Definition fill_sheet (article_cat : str) (paragraphs : list Paragraph.t)
    : Sheet * nat * nat :=
  fold_left (para_step article_cat) paragraphs
    (write_headers 1 headers empty_sheet, 2, 1).

Definition convert_single_file (doc_path : DocFile) (w : World)
    : World * outcome unit :=
  let w := logged (Started (name doc_path)) w in
  match document doc_path with
  | Raised e => (logged (ConvertError (name doc_path) e) w, Raised e)
  | Returned paragraphs =>
      let '(ws, row, _) := fill_sheet (upper (stem doc_path)) paragraphs in
      match save_error doc_path with
      | Some e => (logged (ConvertError (name doc_path) e) w, Raised e)
      | None =>
          let w := saved (stem doc_path ++ lit ".xlsx") ws w in
          (logged (Converted (name doc_path) (row - 2)) w, Returned tt)
      end
  end.

(** Lines 236-241: the loop over the files, with its [try]/[except]. *)
Fixpoint file_loop (word_files : list DocFile) (w : World) : World :=
  match word_files with
  | [] => w
  | doc_path :: rest =>
      match convert_single_file doc_path w with
      | (w', Returned _) => file_loop rest w'
      | (w', Raised e) => file_loop rest (logged (FileFailed (name doc_path) e) w')
      end
  end.

(** [setup] is the outcome of [setup_directories], [word_files] the list
    [get_word_files] returns. *)
Definition process_all_files (setup : outcome unit) (word_files : list DocFile)
    (w : World) : World * outcome unit :=
  match setup with
  | Raised e => (logged (BatchError e) w, Raised e)
  | Returned _ =>
      match word_files with
      | [] => (logged NoFiles w, Returned tt)
      | _ :: _ =>
          let w := logged (Found (List.length word_files)) w in
          (logged AllDone (file_loop word_files w), Returned tt)
      end
  end.

End BatchConverter.

(* ================================================================== *)
(** ** What a cell of openpyxl accepts

    [ws.cell(row, column, value=...)] binds a string through
    [Cell.check_string]: the string is cut to its first 32767 characters,
    and [IllegalCharacterError] is raised when what is left holds a
    control character other than tab, line feed and carriage return
    ([[\000-\010]|[\013-\014]|[\016-\037]]).  A number is stored as it
    is.  The definitions below are lines 179-202 with that check at every
    write. *)

Module Worksheet.
Import Py TextProcessor DocumentProcessor BatchConverter.

(** 32767 *)
Definition max_string_length : nat := 2 ^ 15 - 1.

Definition illegal_character (c : ascii) : bool :=
  let n := nat_of_ascii c in
  (n <=? 8) || ((11 <=? n) && (n <=? 12)) || ((14 <=? n) && (n <=? 31)).

Definition check_string (value : str) : outcome str :=
  let value := firstn max_string_length value in
  if existsb illegal_character value
  then Raised (value ++ lit " cannot be used in worksheets.")
  else Returned value.

(** The string is stored unchanged. *)
Definition storable (value : str) : bool :=
  (List.length value <=? max_string_length)
  && negb (existsb illegal_character value).

Definition bind {A B : Type} (m : outcome A) (f : A -> outcome B) : outcome B :=
  match m with
  | Returned a => f a
  | Raised e => Raised e
  end.

Definition checked_cell (row column : nat) (value : Cell) (ws : Sheet)
    : outcome Sheet :=
  match value with
  | CInt _ => Returned (cell row column value ws)
  | CStr s =>
      bind (check_string s) (fun s' => Returned (cell row column (CStr s') ws))
  end.

Fixpoint checked_headers (col : nat) (hs : list str) (ws : Sheet)
    : outcome Sheet :=
  match hs with
  | [] => Returned ws
  | h :: hs' => bind (checked_cell 1 col (CStr h) ws) (checked_headers (S col) hs')
  end.

Definition checked_para_step (article_cat : str) (st : Sheet * nat * nat)
    (para : Paragraph.t) : outcome (Sheet * nat * nat) :=
  let '(ws, row, article_id) := st in
  let text := normalize_text (Paragraph.text para) in
  if truthy text then
    let '(title, content) := process_paragraph para in
    if truthy title then
      bind (checked_cell row 1 (CInt article_id) ws) (fun ws =>
      bind (checked_cell row 2 (CStr article_cat) ws) (fun ws =>
      bind (checked_cell row 3 (CStr title) ws) (fun ws =>
      bind (checked_cell row 4 (CStr (lit "<p>" ++ content ++ lit "</p>")) ws)
        (fun ws => Returned (ws, row + 1, article_id + 1)))))
    else Returned st
  else Returned st.

Fixpoint checked_loop (article_cat : str) (paragraphs : list Paragraph.t)
    (st : Sheet * nat * nat) : outcome (Sheet * nat * nat) :=
  match paragraphs with
  | [] => Returned st
  | para :: rest =>
      bind (checked_para_step article_cat st para) (checked_loop article_cat rest)
  end.

Definition checked_fill_sheet (article_cat : str) (paragraphs : list Paragraph.t)
    : outcome (Sheet * nat * nat) :=
  bind (checked_headers 1 headers empty_sheet)
    (fun ws => checked_loop article_cat paragraphs (ws, 2, 1)).

End Worksheet.

(* ================================================================== *)
(** ** Sample paragraphs *)

Module Samples.
Import Py FormatProcessor.

Definition run (t : string) (b i : bool) : Run.t :=
  {| Run.text := lit t; Run.bold := b; Run.italic := i |}.

(** The opening tag of a bold span. *)
Definition bold_open : str :=
  lit "<span class=" ++ dquote :: lit "bold" ++ dquote :: lit ">".

(** "Section II: " plain, "Hello " bold, "world" plain. *)
Definition section_two : Paragraph.t :=
  {| Paragraph.text := lit "Section II: Hello world";
     Paragraph.runs := [run "Section II: " false false;
                        run "Hello " true false;
                        run "world" false false] |}.

(** One plain run. *)
Definition plain (t : string) : Paragraph.t :=
  {| Paragraph.text := lit t; Paragraph.runs := [run t false false] |}.

Definition overview : Paragraph.t := plain "Overview, this is the body".

Definition x_marks : Paragraph.t := plain "Hello world X marks".

(** "Chapter " and "IV Overview of the topic", both plain. *)
Definition chapter_four : Paragraph.t :=
  {| Paragraph.text := lit "Chapter IV Overview of the topic";
     Paragraph.runs := [run "Chapter " false false;
                        run "IV Overview of the topic" false false] |}.



(** "Title " plain, "x < y" bold. *)
Definition less_than : Paragraph.t :=
  {| Paragraph.text := lit "Title x < y";
     Paragraph.runs := [run "Title " false false; run "x < y" true false] |}.

End Samples.

(* ================================================================== *)
(** ** Vocabulary of the statements *)

Module Specs.
Import Py Re TextProcessor FormatProcessor DocumentProcessor BatchConverter.

(** Every [<] of the text is directly followed by [span] or [/span]. *)
Fixpoint span_only (s : str) : bool :=
  match s with
  | [] => true
  | c :: s' =>
      (negb (c =? "<")%char
       || startswith (lit "span") s' || startswith (lit "/span") s')
      && span_only s'
  end.

(** A word starts with a character that is not whitespace. *)
Definition wordlike (w : str) : Prop :=
  match w with
  | [] => False
  | c :: _ => is_space c = false
  end.

(** A run that [process_runs] treats as blank: [not run_text.strip()]. *)
Definition blank (r : Run.t) : bool := negb (truthy (strip (Run.text r))).

Fixpoint drop_blank (runs : list Run.t) : list Run.t :=
  match runs with
  | [] => []
  | r :: rs => if blank r then drop_blank rs else runs
  end.

(** Number of words of the runs, each run split on its own. *)
Definition word_count (runs : list Run.t) : nat :=
  list_sum (map (fun r => List.length (split (Run.text r))) runs).

(** A style segment and its markup. *)
Definition render (seg : option Format * str) : str := wrap (fst seg) (snd seg).

(** The state after [current_text.append(t)]. *)
Definition push_text (t : str) (st : State) : State :=
  {| formatted_text := formatted_text st; current_format := current_format st;
     current_text := current_text st ++ [t];
     words_processed := words_processed st |}.

(** The part of the state the output is made from. *)
Definition core (st : State) : list str * option Format * list str :=
  (formatted_text st, current_format st, current_text st).



(** The paragraph yields a row. *)
Definition emits (para : Paragraph.t) : bool :=
  truthy (normalize_text (Paragraph.text para))
  && truthy (fst (process_paragraph para)).

(** Column 1 of the rows 2 .. n+1 reads 1 .. n, and no cell is written
    below row n+1. *)
Definition numbered (ws : Sheet) (n : nat) : Prop :=
  (forall i, i < n -> ws (2 + i) 1 = Some (CInt (1 + i)))
  /\ (forall r c, 2 + n <= r -> ws r c = None).

(** The exception [convert_single_file] raises on the file, if any. *)
Definition convert_fails (f : DocFile) : option str :=
  match document f with
  | Raised e => Some e
  | Returned _ => save_error f
  end.

(** The documents whose conversion was started, in the order of the log. *)
Definition started (l : list LogRecord) : list str :=
  flat_map (fun r => match r with Started d => [d] | _ => [] end) l.

(** What one file adds to the log and to the output directory. *)
Definition file_records (f : DocFile) : list LogRecord :=
  Started (name f) ::
  match document f with
  | Raised e => [ConvertError (name f) e; FileFailed (name f) e]
  | Returned paragraphs =>
      match save_error f with
      | Some e => [ConvertError (name f) e; FileFailed (name f) e]
      | None => [Converted (name f) (snd (fst (fill_sheet (upper (stem f)) paragraphs)) - 2)]
      end
  end.

Definition file_output (f : DocFile) : list (str * Sheet) :=
  match document f with
  | Raised _ => []
  | Returned paragraphs =>
      match save_error f with
      | Some _ => []
      | None => [(stem f ++ lit ".xlsx", fst (fst (fill_sheet (upper (stem f)) paragraphs)))]
      end
  end.

End Specs.

(* ================================================================== *)
(** ** Further vocabulary *)

Module Vocabulary.
Import Py Re TextProcessor FormatProcessor DocumentProcessor BatchConverter.

(** No character of the text is whitespace, as for a word of [split]. *)
Definition spacefree (w : str) : bool :=
  forallb (fun c => negb (is_space c)) w.

(** The text consists of [,] and [:] only. *)
Definition all_punct (w : str) : bool := forallb is_label_punct w.

(** The words after the first start with a Roman numeral, as line 117
    tests it. *)
Definition numeral_follows (rest : list str) : bool :=
  match rest with
  | second_word :: _ => is_roman_numeral (clean_first_word second_word)
  | [] => false
  end.

(** The texts [process_runs] keeps when nothing is to be skipped, each
    with the style it is rendered in.  [cur] is the style of the pending
    accumulator, once there is one: a run of whitespace takes that style,
    a blank run is dropped while nothing is pending, and an empty run is
    always dropped. *)
Fixpoint pieces (cur : option (option Format)) (runs : list Run.t)
    : list (option Format * str) :=
  match runs with
  | [] => []
  | r :: rs =>
      if Specs.blank r then
        match cur with
        | Some f =>
            if isspace (Run.text r) then (f, Run.text r) :: pieces cur rs
            else pieces cur rs
        | None => pieces cur rs
        end
      else
        (get_run_formatting r, Run.text r)
          :: pieces (Some (get_run_formatting r)) rs
  end.

(** Adjacent pieces of one style put together. *)
Fixpoint merge (l : list (option Format * str)) : list (option Format * str) :=
  match l with
  | [] => []
  | (f, t) :: l' =>
      match merge l' with
      | (g, u) :: m =>
          if format_differs f g then (f, t) :: (g, u) :: m
          else (f, t ++ u) :: m
      | [] => [(f, t)]
      end
  end.

(** No position of the text starts a match of [<(?!/?span)[^>]+>]. *)
Fixpoint tag_free (s : str) : bool :=
  match s with
  | [] => true
  | _ :: s' =>
      match tag_match s with
      | Some _ => false
      | None => tag_free s'
      end
  end.

(** The first letter of a Roman-numeral token: I, V or X. *)
Definition numeral_letter (c : ascii) : bool :=
  ("I" =? c)%char || ("V" =? c)%char || ("X" =? c)%char.

(** The header row: column [c] of row 1. *)
Definition header_cell (c : nat) : option Cell :=
  match c with
  | 0 => None
  | S k => option_map CStr (nth_error headers k)
  end.

(** Data row [i] (from 0) of the sheet holds the row of [para]. *)
Definition row_holds (cat : str) (ws : Sheet) (i : nat) (para : Paragraph.t)
    : Prop :=
  ws (2 + i) 1 = Some (CInt (1 + i))
  /\ ws (2 + i) 2 = Some (CStr cat)
  /\ ws (2 + i) 3 = Some (CStr (fst (process_paragraph para)))
  /\ ws (2 + i) 4
     = Some (CStr (lit "<p>" ++ snd (process_paragraph para) ++ lit "</p>")).

(** The sheet holds the header row, one data row for each paragraph of
    [emitted], in order, and nothing else. *)
Definition sheet_of (cat : str) (ws : Sheet) (emitted : list Paragraph.t)
    : Prop :=
  (forall i para, nth_error emitted i = Some para -> row_holds cat ws i para)
  /\ (forall c, ws 1 c = header_cell c)
  /\ (forall r c,
        r = 0 \/ 2 + List.length emitted <= r \/ c = 0 \/ 4 < c ->
        ws r c = None).









(** Consecutive segments have different styles. *)
Fixpoint alternating (segs : list (option Format * str)) : bool :=
  match segs with
  | a :: tl =>
      match tl with
      | b :: _ => format_differs (fst a) (fst b) && alternating tl
      | [] => true
      end
  | [] => true
  end.

End Vocabulary.

(* ================================================================== *)
(** * Properties *)

(** ** Facts about the text primitives *)

Module PyFacts.
Import Py.

Lemma str_eqb_eq : forall a b, str_eqb a b = true <-> a = b.
Proof.
  induction a as [|x a IH]; destruct b as [|y b]; simpl; split;
    try congruence; try reflexivity.
  - rewrite andb_true_iff, Ascii.eqb_eq, IH. intros [-> ->]. reflexivity.
  - intros E. injection E as -> ->.
    rewrite Ascii.eqb_refl. simpl. apply IH. reflexivity.
Qed.

Lemma rstrip_cons c s :
  rstrip (c :: s) =
  if truthy (rstrip s) then c :: rstrip s
  else if is_space c then [] else [c].
Proof. simpl. destruct (rstrip s); reflexivity. Qed.

Lemma rstrip_keep c s : is_space c = false -> rstrip (c :: s) = c :: rstrip s.
Proof.
  intros H. rewrite rstrip_cons, H. destruct (rstrip s); reflexivity.
Qed.

Lemma rstrip_last : forall s t c, rstrip s = t ++ [c] -> is_space c = false.
Proof.
  induction s as [|a s IH]; intros t c.
  - destruct t; discriminate.
  - rewrite rstrip_cons. destruct (rstrip s) as [|x u] eqn:E; simpl.
    + destruct (is_space a) eqn:Ha.
      * destruct t; discriminate.
      * destruct t as [|y t]; simpl; intros H.
        -- injection H as <-. exact Ha.
        -- injection H as _ H. destruct t; discriminate.
    + destruct t as [|y t]; simpl; intros H.
      * discriminate.
      * injection H as _ H. apply (IH t c). exact H.
Qed.

Lemma rstrip_blank : forall s, forallb is_space (rstrip s) = true -> rstrip s = [].
Proof.
  induction s as [|a s IH]; [reflexivity|].
  rewrite rstrip_cons. destruct (rstrip s) as [|x u] eqn:E; simpl.
  - destruct (is_space a) eqn:Ha; simpl; [reflexivity|].
    rewrite Ha. discriminate.
  - intros H. apply andb_true_iff in H as [_ H].
    specialize (IH H). discriminate.
Qed.

Lemma lstrip_idem : forall s, lstrip (lstrip s) = lstrip s.
Proof.
  induction s as [|a s IH]; [reflexivity|].
  simpl. destruct (is_space a) eqn:Ha; [exact IH|].
  simpl. rewrite Ha. reflexivity.
Qed.

Lemma rstrip_idem : forall s, rstrip (rstrip s) = rstrip s.
Proof.
  induction s as [|a s IH]; [reflexivity|].
  rewrite rstrip_cons. destruct (rstrip s) as [|x u] eqn:E; simpl truthy; cbv iota.
  - destruct (is_space a) eqn:Ha; [reflexivity|].
    simpl. rewrite Ha. reflexivity.
  - rewrite rstrip_cons, IH. reflexivity.
Qed.

Lemma lstrip_rstrip : forall s, lstrip (rstrip s) = rstrip (lstrip s).
Proof.
  induction s as [|a s IH]; [reflexivity|].
  destruct (is_space a) eqn:Ha.
  - simpl lstrip at 2. rewrite Ha, <- IH, rstrip_cons, Ha.
    destruct (rstrip s); simpl; rewrite ?Ha; reflexivity.
  - simpl lstrip at 2. rewrite Ha, rstrip_keep by exact Ha.
    simpl. rewrite Ha. reflexivity.
Qed.

Lemma strip_idem : forall s, strip (strip s) = strip s.
Proof.
  intros s. unfold strip.
  rewrite (lstrip_rstrip (lstrip s)), lstrip_idem, rstrip_idem. reflexivity.
Qed.

End PyFacts.

(** ** Facts about the substitutions *)

Module ReFacts.
Import Py Re PyFacts.

Lemma squeeze_from_in P r b c s :
  P c = true ->
  squeeze_from P r b (c :: s)
  = if b then squeeze_from P r true s else r :: squeeze_from P r true s.
Proof. intros H. simpl. rewrite H. reflexivity. Qed.

Lemma squeeze_from_out P r b c s :
  P c = false -> squeeze_from P r b (c :: s) = c :: squeeze_from P r false s.
Proof. intros H. simpl. rewrite H. reflexivity. Qed.

(** One squeeze. *)
Section Squeeze.
Variables (P : ascii -> bool) (r : ascii).
Hypothesis P_r : P r = true.

Lemma squeeze_from_nil_inv : forall s b,
  squeeze_from P r b s = [] -> forallb P s = true.
Proof.
  induction s as [|c s IH]; intros b; simpl; [reflexivity|].
  destruct (P c) eqn:Hc; [|discriminate].
  destruct b; [|discriminate]. simpl. apply IH.
Qed.

Lemma squeeze_from_fixed : forall s b,
  squeeze_from P r false (squeeze_from P r b s) = squeeze_from P r b s
  /\ squeeze_from P r true (squeeze_from P r true s) = squeeze_from P r true s.
Proof.
  induction s as [|c s IH]; intros b; simpl; [split; reflexivity|].
  destruct (P c) eqn:Hc.
  - split.
    + destruct b.
      * apply (IH true).
      * simpl. rewrite P_r. f_equal. apply (IH true).
    + apply (IH true).
  - simpl. rewrite Hc. split; f_equal; apply (IH false).
Qed.

Lemma squeeze_idem : forall s, squeeze P r (squeeze P r s) = squeeze P r s.
Proof. intros s. apply (squeeze_from_fixed s false). Qed.
End Squeeze.

(** Two squeezes over disjoint classes commute. *)
Section TwoSqueezes.
Variables (P Q : ascii -> bool) (p q : ascii).
Hypothesis disjoint : forall c, P c = true -> Q c = false.
Hypothesis P_q : P q = false.
Hypothesis Q_p : Q p = false.

Lemma squeeze_from_comm : forall s b1 b2,
  b1 && b2 = false ->
  squeeze_from P p b1 (squeeze_from Q q b2 s)
  = squeeze_from Q q b2 (squeeze_from P p b1 s).
Proof.
  induction s as [|c s IH]; intros b1 b2 Hb; simpl; [reflexivity|].
  destruct (P c) eqn:Hc.
  - rewrite (disjoint c Hc). simpl. rewrite Hc.
    destruct b1; simpl in Hb.
    + subst b2. apply IH. reflexivity.
    + simpl. rewrite Q_p. f_equal. apply IH. reflexivity.
  - destruct (Q c) eqn:Hq; simpl; rewrite ?Hq.
    + destruct b2.
      * rewrite andb_true_r in Hb. subst b1. apply IH. reflexivity.
      * simpl. rewrite P_q. f_equal. apply IH. reflexivity.
    + rewrite Hc. f_equal. apply IH. reflexivity.
Qed.

Lemma squeeze_comm : forall s,
  squeeze P p (squeeze Q q s) = squeeze Q q (squeeze P p s).
Proof. intros s. apply squeeze_from_comm. reflexivity. Qed.
End TwoSqueezes.

(** A squeeze that leaves whitespace alone commutes with [strip]. *)
Section SqueezeStrip.
Variables (Q : ascii -> bool) (q : ascii).
Hypothesis Q_space : forall c, is_space c = true -> Q c = false.
Hypothesis q_space : is_space q = false.

Lemma squeeze_false_nil : forall s, squeeze_from Q q false s = [] -> s = [].
Proof.
  intros [|c s]; simpl; [reflexivity|]. destruct (Q c); discriminate.
Qed.

Lemma lstrip_squeeze : forall s,
  lstrip (squeeze_from Q q false s) = squeeze_from Q q false (lstrip s).
Proof.
  induction s as [|c s IH]; [reflexivity|].
  simpl. destruct (is_space c) eqn:Hc.
  - rewrite (Q_space c Hc). simpl. rewrite Hc. exact IH.
  - destruct (Q c) eqn:Hq; simpl; rewrite ?q_space, ?Hc, ?Hq; reflexivity.
Qed.

Lemma rstrip_squeeze : forall s b,
  rstrip (squeeze_from Q q b s) = squeeze_from Q q b (rstrip s).
Proof.
  induction s as [|c s IH]; intros b; [reflexivity|].
  destruct (is_space c) eqn:Hc.
  - simpl squeeze_from at 1. rewrite (Q_space c Hc).
    rewrite !rstrip_cons, Hc, IH.
    destruct (rstrip s) as [|x u] eqn:E.
    + reflexivity.
    + assert (Hs : squeeze_from Q q b (c :: x :: u)
                   = c :: squeeze_from Q q false (x :: u))
        by (simpl; rewrite (Q_space c Hc); reflexivity).
      simpl truthy at 2. cbv iota. rewrite Hs.
      destruct (squeeze_from Q q false (x :: u)) eqn:E'; [|reflexivity].
      apply squeeze_false_nil in E'. discriminate.
  - rewrite (rstrip_keep c s Hc). simpl.
    destruct (Q c); [destruct b|].
    + apply IH.
    + rewrite rstrip_keep by exact q_space. f_equal. apply IH.
    + rewrite rstrip_keep by exact Hc. f_equal. apply IH.
Qed.

Lemma strip_squeeze : forall s,
  strip (squeeze Q q s) = squeeze Q q (strip s).
Proof.
  intros s. unfold strip, squeeze. rewrite lstrip_squeeze. apply rstrip_squeeze.
Qed.
End SqueezeStrip.

(** The whitespace squeeze and [strip]. *)
Lemma lstrip_sub_spaces : forall s b,
  lstrip (squeeze_from is_space " "%char b s)
  = squeeze_from is_space " "%char false (lstrip s).
Proof.
  induction s as [|c s IH]; intros b; [reflexivity|].
  simpl. destruct (is_space c) eqn:Hc.
  - destruct b; simpl; apply IH.
  - simpl. rewrite Hc. reflexivity.
Qed.

Lemma rstrip_sub_spaces : forall s b,
  rstrip (squeeze_from is_space " "%char b s)
  = squeeze_from is_space " "%char b (rstrip s).
Proof.
  induction s as [|c s IH]; intros b; [reflexivity|].
  destruct (is_space c) eqn:Hc.
  - rewrite (rstrip_cons c s), Hc, (squeeze_from_in _ _ b c s Hc).
    destruct (rstrip s) as [|x u] eqn:E; simpl truthy; cbv iota.
    + destruct b; [rewrite IH; reflexivity|].
      rewrite rstrip_cons, IH. reflexivity.
    + rewrite (squeeze_from_in _ _ b c (x :: u) Hc).
      destruct b; [apply IH|].
      rewrite rstrip_cons, IH.
      destruct (squeeze_from is_space " "%char true (x :: u)) eqn:E'; [|reflexivity].
      apply squeeze_from_nil_inv in E'. rewrite <- E in E'.
      apply rstrip_blank in E'. congruence.
  - rewrite (rstrip_keep c s Hc), !squeeze_from_out by exact Hc.
    rewrite rstrip_keep by exact Hc. f_equal. apply IH.
Qed.

Lemma strip_sub_spaces : forall s, strip (sub_spaces s) = sub_spaces (strip s).
Proof.
  intros s. unfold strip, sub_spaces, squeeze.
  rewrite lstrip_sub_spaces. apply rstrip_sub_spaces.
Qed.

End ReFacts.

(** The whitespace pass of lines 31 and 147 commutes with the collapse of
    a repeated character that is not whitespace. *)
Module NormalizeFacts.
Import Py Re PyFacts ReFacts TextProcessor.

(** Collapsing the repetitions of [c] leaves one [c] for each maximal run
    of [c]. *)
Lemma sub_repeated_from_squeeze c : forall s b,
  sub_repeated_from c b s = squeeze_from (Ascii.eqb c) c b s.
Proof.
  induction s as [|x s IH]; intros b; [reflexivity|].
  cbn [sub_repeated_from squeeze_from].
  destruct (Ascii.eqb_spec c x) as [<-|Hx]; [|f_equal; apply IH].
  destruct b; [apply IH|].
  destruct s as [|y s]; [reflexivity|].
  destruct (Ascii.eqb_spec c y) as [<-|Hy]; [f_equal; apply IH|].
  f_equal. rewrite (IH false). cbn [squeeze_from].
  apply Ascii.eqb_neq in Hy. rewrite Hy. reflexivity.
Qed.

Lemma sub_repeated_squeeze c s :
  sub_repeated c s = squeeze (Ascii.eqb c) c s.
Proof. apply sub_repeated_from_squeeze. Qed.

Lemma eqb_not_space k c :
  is_space k = false -> is_space c = true -> Ascii.eqb k c = false.
Proof.
  intros Hk Hc. destruct (Ascii.eqb_spec k c) as [->|]; congruence.
Qed.

Lemma normalize_text_idem s : normalize_text (normalize_text s) = normalize_text s.
Proof.
  unfold normalize_text. rewrite (strip_sub_spaces (strip (sub_spaces s))).
  rewrite strip_idem, strip_sub_spaces. unfold sub_spaces at 1 2.
  rewrite squeeze_idem by reflexivity. reflexivity.
Qed.

Lemma normalize_text_sub_repeated k s :
  is_space k = false ->
  normalize_text (sub_repeated k s) = sub_repeated k (normalize_text s).
Proof.
  intros Hk. rewrite !sub_repeated_squeeze. unfold normalize_text, sub_spaces.
  rewrite (squeeze_comm is_space (Ascii.eqb k) " "%char k).
  - apply strip_squeeze; [intros c Hc; apply eqb_not_space; assumption | exact Hk].
  - intros c Hc. apply eqb_not_space; assumption.
  - exact Hk.
  - destruct (Ascii.eqb_spec k " "%char) as [->|]; [discriminate Hk | reflexivity].
Qed.

Lemma sub_repeated_idem k s : sub_repeated k (sub_repeated k s) = sub_repeated k s.
Proof. rewrite !sub_repeated_squeeze. apply squeeze_idem. apply Ascii.eqb_refl. Qed.

Lemma sub_repeated_comm j k s :
  j <> k -> sub_repeated j (sub_repeated k s) = sub_repeated k (sub_repeated j s).
Proof.
  intros Hjk. rewrite !sub_repeated_squeeze. apply squeeze_comm.
  - intros c Hc. apply Ascii.eqb_eq in Hc. subst c.
    apply Ascii.eqb_neq. congruence.
  - apply Ascii.eqb_neq. exact Hjk.
  - apply Ascii.eqb_neq. congruence.
Qed.

End NormalizeFacts.

(* ================================================================== *)
(** ** TextProcessor.is_roman_numeral *)

Module TokenClassifier.
Import Py Re PyFacts TextProcessor.

(** C5, as stated, fails: the argument is stripped before it is matched,
    so " IV" is accepted although it is none of the ten tokens. *)
Lemma is_roman_numeral_padded :
  is_roman_numeral (lit " IV") = true /\ ~ In (lit " IV") roman_tokens.
Proof.
  split; [reflexivity|].
  cbv. intros H. repeat (destruct H as [H|H]; [discriminate H|]). exact H.
Qed.

(** C5, amended: [is_roman_numeral] returns true exactly when its
    argument, with leading and trailing whitespace removed, is one of the
    ten tokens I..X; so for an argument without surrounding whitespace it
    is the exact, case-sensitive match, and lowercase forms, "XI", "IIII"
    and the empty string are rejected. *)
Theorem is_roman_numeral_spec :
  (forall s, is_roman_numeral s = true <-> In (strip s) roman_tokens)
  /\ (forall s, strip s = s -> (is_roman_numeral s = true <-> In s roman_tokens))
  /\ map is_roman_numeral roman_tokens = map (fun _ => true) roman_tokens
  /\ map is_roman_numeral
       (map lit ["i"; "ii"; "iv"; "x"; "Iv"; "XI"; "IIII"; ""]%string)
     = [false; false; false; false; false; false; false; false].
Proof.
  assert (H : forall s, is_roman_numeral s = true <-> In (strip s) roman_tokens).
  { intros s. unfold is_roman_numeral, match_roman, strip.
    rewrite existsb_exists. split.
    - intros [t [Ht E]]. apply orb_true_iff in E as [E|E].
      + apply str_eqb_eq in E. rewrite E. exact Ht.
      + apply str_eqb_eq in E. apply rstrip_last in E. discriminate E.
    - intros Hin. exists (rstrip (lstrip s)). split; [exact Hin|].
      apply orb_true_iff. left. apply str_eqb_eq. reflexivity. }
  split; [exact H|]. split.
  - intros s Hs. rewrite H, Hs. reflexivity.
  - split; reflexivity.
Qed.

Lemma is_roman_numeral_spec_witness :
  strip (lit "VIII") = lit "VIII"
  /\ (is_roman_numeral (lit "VIII") = true <-> In (lit "VIII") roman_tokens).
Proof.
  split; [reflexivity|].
  apply (proj1 (proj2 is_roman_numeral_spec) (lit "VIII")). reflexivity.
Defined.

End TokenClassifier.

(* ================================================================== *)
(** ** DocumentProcessor.process_paragraph on the samples *)

Module Segmenter.
Import Py Re TextProcessor FormatProcessor DocumentProcessor Samples NormalizeFacts.

(** C1, as stated, fails on the body: the detected colon is put back in
    front of the first closing span tag. *)
Lemma section_two_body_differs :
  snd (process_paragraph section_two) <> bold_open ++ lit "Hello </span>world".
Proof. vm_compute. discriminate. Qed.

(** C1, amended: for "Section II: " plain, "Hello " bold, "world" plain,
    the title is "SECTION II", the detected punctuation is ":", and the
    body is the bold span of "Hello :" followed by "world". *)
Theorem section_two_result :
  process_paragraph section_two
  = (lit "SECTION II", bold_open ++ lit "Hello :</span>world")
  /\ detected_punctuation section_two = Some (lit ":").
Proof. split; vm_compute; reflexivity. Qed.

(** C2, as stated, fails: the second word is no Roman numeral, so no
    punctuation is detected and no comma is put in front of the body. *)
Lemma overview_no_comma :
  ~ (detected_punctuation overview = Some (lit ",")
     \/ snd (process_paragraph overview) = lit ", this is the body").
Proof. vm_compute. intros [H|H]; discriminate H. Qed.

(** C2, amended: for the single plain run "Overview, this is the body"
    the title is "OVERVIEW", no punctuation is detected, and the body is
    "this is the body". *)
Theorem overview_result :
  process_paragraph overview = (lit "OVERVIEW", lit "this is the body")
  /\ detected_punctuation overview = None
  /\ skip_count overview = 1.
Proof. repeat split; vm_compute; reflexivity. Qed.

(** C7: the normalization of lines 147-149 (whitespace runs to one space
    and strip, then repeated ":" to one, then repeated "," to one) is
    idempotent. *)
Theorem normalize_body_idempotent :
  forall s, normalize_body (normalize_body s) = normalize_body s.
Proof.
  intros s.
  assert (E : forall x, normalize_body x
                = sub_repeated ","%char (sub_repeated ":"%char (normalize_text x)))
    by reflexivity.
  rewrite !E.
  rewrite (normalize_text_sub_repeated ","%char) by reflexivity.
  rewrite (normalize_text_sub_repeated ":"%char) by reflexivity.
  rewrite normalize_text_idem.
  rewrite (sub_repeated_comm ":"%char ","%char) by discriminate.
  rewrite !sub_repeated_idem. reflexivity.
Qed.

End Segmenter.

(* ================================================================== *)
(** ** The sanitization pass (line 136) *)

Module Sanitizer.
Import Py Re PyFacts FormatProcessor DocumentProcessor Samples Specs.

Lemma startswith_app : forall p s t,
  startswith p s = true -> startswith p (s ++ t) = true.
Proof.
  induction p as [|a p IH]; intros [|b s] t; simpl; try congruence.
  intros H. apply andb_true_iff in H as [H1 H2].
  rewrite H1. simpl. apply IH. exact H2.
Qed.

Lemma startswith_before : forall p inner c post,
  index_of c p = None ->
  startswith p (inner ++ c :: post) = startswith p inner.
Proof.
  induction p as [|a p IH]; intros inner c post Hp; [destruct inner; reflexivity|].
  simpl in Hp. destruct (Ascii.eqb a c) eqn:Hac; [discriminate Hp|].
  destruct (index_of c p) eqn:Hi; [discriminate Hp|].
  destruct inner as [|x inner]; simpl.
  - rewrite Hac. reflexivity.
  - rewrite IH by exact Hi. reflexivity.
Qed.

Lemma index_of_first : forall inner c post,
  index_of c inner = None ->
  index_of c (inner ++ c :: post) = Some (List.length inner).
Proof.
  induction inner as [|x inner IH]; intros c post H; simpl.
  - rewrite Ascii.eqb_refl. reflexivity.
  - simpl in H. destruct (Ascii.eqb x c); [discriminate H|].
    destruct (index_of c inner) eqn:Hi; [discriminate H|].
    rewrite IH by exact Hi. reflexivity.
Qed.

Lemma tag_match_kept c s t :
  negb (c =? "<")%char
  || startswith (lit "span") s || startswith (lit "/span") s = true ->
  tag_match (c :: s ++ t) = None.
Proof.
  intros H. unfold tag_match. destruct (c =? "<")%char; [|reflexivity].
  cbn [negb orb] in H. apply orb_true_iff in H as [H|H];
    rewrite (startswith_app _ _ t H); [|rewrite orb_true_r]; reflexivity.
Qed.

Lemma sub_tags_from_skip : forall a b,
  sub_tags_from (List.length a) (a ++ b) = sub_tags_from 0 b.
Proof. induction a as [|x a IH]; intros b; [reflexivity | apply IH]. Qed.

Lemma sub_tags_prefix : forall pre rest,
  span_only pre = true -> sub_tags (pre ++ rest) = pre ++ sub_tags rest.
Proof.
  unfold sub_tags.
  induction pre as [|c pre IH]; intros rest H; [reflexivity|].
  cbn [span_only] in H. apply andb_true_iff in H as [Hc H].
  change ((c :: pre) ++ rest) with (c :: pre ++ rest).
  cbn [sub_tags_from]. rewrite (tag_match_kept c pre rest Hc).
  cbn [app]. f_equal. apply IH. exact H.
Qed.

Lemma sub_tags_tag inner post :
  inner <> [] ->
  index_of ">"%char inner = None ->
  startswith (lit "span") inner = false ->
  startswith (lit "/span") inner = false ->
  sub_tags ("<"%char :: inner ++ ">"%char :: post) = sub_tags post.
Proof.
  intros Hne Hgt Hs Hc. unfold sub_tags. cbn [sub_tags_from].
  assert (Hm : tag_match ("<"%char :: inner ++ ">"%char :: post)
               = Some (List.length inner + 2)).
  { unfold tag_match. rewrite Ascii.eqb_refl.
    rewrite !startswith_before by reflexivity. rewrite Hs, Hc. simpl orb. cbv iota.
    rewrite index_of_first by exact Hgt.
    destruct inner; [congruence | reflexivity]. }
  rewrite Hm.
  replace (List.length inner + 2 - 1) with (List.length (inner ++ [">"%char]))
    by (rewrite length_app; simpl; lia).
  replace (inner ++ ">"%char :: post) with ((inner ++ [">"%char]) ++ post)
    by (rewrite <- app_assoc; reflexivity).
  apply sub_tags_from_skip.
Qed.

Lemma span_only_app : forall a b,
  span_only a = true -> span_only b = true -> span_only (a ++ b) = true.
Proof.
  induction a as [|c a IH]; intros b Ha Hb; [exact Hb|].
  cbn [span_only app] in *. apply andb_true_iff in Ha as [Hc Ha].
  rewrite (IH b Ha Hb), andb_true_r.
  destruct (c =? "<")%char; [|reflexivity]. cbn [negb orb] in *.
  apply orb_true_iff in Hc as [H|H];
    rewrite (startswith_app _ _ b H); [|rewrite orb_true_r]; reflexivity.
Qed.

Lemma span_only_wrap f t : span_only t = true -> span_only (wrap f t) = true.
Proof.
  intros Ht. destruct f as [f|]; [|exact Ht]. unfold wrap.
  assert (Hopen : forall rest, span_only rest = true ->
            span_only (lit "<span class=" ++ dquote :: format_class f
                         ++ dquote :: lit ">" ++ rest) = true).
  { intros rest Hr. destruct f; simpl; rewrite Hr; reflexivity. }
  apply Hopen. apply span_only_app; [exact Ht | reflexivity].
Qed.

(** C6: the code breaks the claim.  Line 136 takes the [<] of the bold
    text "x < y" for the start of a tag and deletes it up to the next [>],
    so the closing tag [process_runs] has just emitted is lost and
    [process_paragraph] returns an unclosed span; and a tag whose name only
    begins with "span" is not stripped. *)
Lemma sanitize_not_exact :
  sanitize (bold_open ++ lit "x < y</span>") = bold_open ++ lit "x "
  /\ sanitize (lit "a<spanx>b") = lit "a<spanx>b"
  /\ process_paragraph less_than = (lit "TITLE", bold_open ++ lit "x").
Proof. repeat split; vm_compute; reflexivity. Qed.

End Sanitizer.

(* ================================================================== *)
(** ** BatchConverter: row numbering and failures *)

Module Batch.
Import Py TextProcessor DocumentProcessor BatchConverter Samples Specs.

Lemma cell_other_row row col v ws r c :
  r <> row -> cell row col v ws r c = ws r c.
Proof.
  intros H. unfold cell. apply Nat.eqb_neq in H. rewrite H. reflexivity.
Qed.

Lemma cell_other_col row col v ws r c :
  c <> col -> cell row col v ws r c = ws r c.
Proof.
  intros H. unfold cell. apply Nat.eqb_neq in H. rewrite H, andb_false_r.
  reflexivity.
Qed.

Lemma cell_same row col v ws : cell row col v ws row col = Some v.
Proof. unfold cell. rewrite !Nat.eqb_refl. reflexivity. Qed.

Lemma numbered_headers : numbered (write_headers 1 headers empty_sheet) 0.
Proof.
  split; [intros i Hi; lia|].
  intros r c Hr. unfold headers. cbn [map write_headers].
  rewrite !cell_other_row by lia. reflexivity.
Qed.

Lemma para_step_emits cat ws row article_id para :
  emits para = true ->
  exists title content,
    process_paragraph para = (title, content)
    /\ para_step cat (ws, row, article_id) para
       = (cell row 4 (CStr (lit "<p>" ++ content ++ lit "</p>"))
            (cell row 3 (CStr title)
               (cell row 2 (CStr cat)
                  (cell row 1 (CInt article_id) ws))),
          row + 1, article_id + 1).
Proof.
  unfold emits, para_step. intros H. apply andb_true_iff in H as [H1 H2].
  rewrite H1. destruct (process_paragraph para) as [title content].
  cbn [fst] in H2. rewrite H2. exists title, content. split; reflexivity.
Qed.

Lemma para_step_skips cat st para :
  emits para = false -> para_step cat st para = st.
Proof.
  unfold emits, para_step. intros H. destruct st as [[ws row] article_id].
  destruct (truthy (normalize_text (Paragraph.text para))); [|reflexivity].
  destruct (process_paragraph para) as [title content].
  cbn [fst andb] in H. rewrite H. reflexivity.
Qed.

Lemma numbered_next ws k title cat content :
  numbered ws k ->
  numbered (cell (2 + k) 4 (CStr content)
              (cell (2 + k) 3 (CStr title)
                 (cell (2 + k) 2 (CStr cat)
                    (cell (2 + k) 1 (CInt (1 + k)) ws)))) (k + 1).
Proof.
  intros [Hids Hfree]. split.
  - intros i Hi. rewrite !cell_other_col by lia.
    destruct (Nat.eq_dec i k) as [->|Hik].
    + apply cell_same.
    + rewrite cell_other_row by lia. apply Hids. lia.
  - intros r c Hr. rewrite !cell_other_row by lia. apply Hfree. lia.
Qed.

(** The loop over the paragraphs, from any row. *)
Lemma para_loop : forall paragraphs cat ws k,
  numbered ws k ->
  exists ws',
    fold_left (para_step cat) paragraphs (ws, 2 + k, 1 + k)
    = (ws', 2 + (k + List.length (filter emits paragraphs)),
       1 + (k + List.length (filter emits paragraphs)))
    /\ numbered ws' (k + List.length (filter emits paragraphs)).
Proof.
  induction paragraphs as [|para rest IH]; intros cat ws k Hn.
  - exists ws. cbn [fold_left filter List.length]. rewrite Nat.add_0_r.
    split; [reflexivity | exact Hn].
  - cbn [fold_left filter]. destruct (emits para) eqn:He.
    + destruct (para_step_emits cat ws (2 + k) (1 + k) para He)
        as [title [content [_ Hstep]]].
      rewrite Hstep.
      replace (2 + k + 1) with (2 + (k + 1)) by lia.
      replace (1 + k + 1) with (1 + (k + 1)) by lia.
      destruct (IH cat _ (k + 1)
                  (numbered_next ws k title cat
                     (lit "<p>" ++ content ++ lit "</p>") Hn))
        as [ws' [Hloop Hn']].
      exists ws'. cbn [List.length].
      replace (k + S (List.length (filter emits rest)))
        with (k + 1 + List.length (filter emits rest)) by lia.
      split; assumption.
    + rewrite para_step_skips by exact He. apply IH. exact Hn.
Qed.

Lemma fill_sheet_numbered cat paragraphs :
  exists ws,
    fill_sheet cat paragraphs
    = (ws, 2 + List.length (filter emits paragraphs),
       1 + List.length (filter emits paragraphs))
    /\ numbered ws (List.length (filter emits paragraphs)).
Proof.
  unfold fill_sheet.
  apply (para_loop paragraphs cat _ 0 numbered_headers).
Qed.

(** The loop over the files adds, for each file in turn, what the file
    yields on its own. *)
Lemma file_loop_effect : forall files w,
  log (file_loop files w) = log w ++ flat_map file_records files
  /\ output (file_loop files w) = output w ++ flat_map file_output files.
Proof.
  induction files as [|f rest IH]; intros w.
  - cbn [file_loop flat_map]. rewrite !app_nil_r. split; reflexivity.
  - cbn [file_loop flat_map]. unfold convert_single_file, file_records, file_output.
    destruct (document f) as [paragraphs|e].
    + destruct (fill_sheet (upper (stem f)) paragraphs) as [[ws row] aid].
      destruct (save_error f) as [e|];
        match goal with |- context [file_loop rest ?w1] =>
          destruct (IH w1) as [Hl Ho]; rewrite Hl, Ho end;
        cbn [log output logged saved fst snd app];
        rewrite <- ?app_assoc; split; reflexivity.
    + match goal with |- context [file_loop rest ?w1] =>
        destruct (IH w1) as [Hl Ho]; rewrite Hl, Ho end.
      cbn [log output logged saved fst snd app].
      rewrite <- ?app_assoc. split; reflexivity.
Qed.

Lemma started_app l1 l2 : started (l1 ++ l2) = started l1 ++ started l2.
Proof. apply flat_map_app. Qed.

Lemma started_file_records : forall files,
  started (flat_map file_records files) = map name files.
Proof.
  induction files as [|f rest IH]; [reflexivity|].
  cbn [flat_map map]. rewrite started_app, IH. unfold file_records.
  destruct (document f); [destruct (save_error f)|]; reflexivity.
Qed.

Lemma failure_recorded f e :
  convert_fails f = Some e -> In (FileFailed (name f) e) (file_records f).
Proof.
  unfold convert_fails, file_records. destruct (document f) as [ps|e'].
  - intros ->. right. right. left. reflexivity.
  - intros H. injection H as ->. right. right. left. reflexivity.
Qed.

(** C8: the sheet of a document has 1 .. N in column 1 of its N data rows
    (rows 2 .. N+1) and nothing below; N is the number of paragraphs with
    a non-empty text and a non-empty title, and [article_id] and [row] end
    at N+1 and N+2.  Every workbook the batch saves is the sheet of one of
    its files, numbered from 1 again. *)
Theorem article_ids_sequence :
  (forall cat paragraphs ws row article_id,
      fill_sheet cat paragraphs = (ws, row, article_id) ->
      let n := List.length (filter emits paragraphs) in
      row = 2 + n /\ article_id = 1 + n /\ numbered ws n)
  /\ (forall setup files path ws,
        In (path, ws) (output (fst (process_all_files setup files empty_world))) ->
        exists f paragraphs,
          In f files /\ document f = Returned paragraphs
          /\ ws = fst (fst (fill_sheet (upper (stem f)) paragraphs))
          /\ numbered ws (List.length (filter emits paragraphs))).
Proof.
  split.
  - intros cat paragraphs ws row article_id H n.
    destruct (fill_sheet_numbered cat paragraphs) as [ws' [E Hn]].
    rewrite E in H. injection H as <- <- <-. auto.
  - intros setup files path ws.
    unfold process_all_files. destruct setup as [u|e]; [|intros []].
    destruct files as [|f0 rest]; [intros []|].
    cbn [fst output logged].
    rewrite (proj2 (file_loop_effect (f0 :: rest) _)). cbn [output logged empty_world app].
    generalize (f0 :: rest). intros files Hin.
    apply in_flat_map in Hin as [f [Hf Hin]]. unfold file_output in Hin.
    destruct (document f) as [paragraphs|e] eqn:Hd; [|destruct Hin].
    destruct (save_error f); [destruct Hin|].
    destruct Hin as [Hin|[]]. injection Hin as _ <-.
    exists f, paragraphs. repeat split; try assumption.
    + destruct (fill_sheet_numbered (upper (stem f)) paragraphs) as [ws' [E Hn]].
      rewrite E. cbn [fst]. apply Hn.
    + destruct (fill_sheet_numbered (upper (stem f)) paragraphs) as [ws' [E Hn]].
      rewrite E. cbn [fst]. apply Hn.
Qed.

Lemma article_ids_sequence_witness :
  let st := fill_sheet (lit "A") [section_two; plain "  "; plain ":"; x_marks] in
  snd (fst st) = 4 /\ snd st = 3 /\ numbered (fst (fst st)) 2.
Proof.
  intros st.
  assert (E : fill_sheet (lit "A") [section_two; plain "  "; plain ":"; x_marks]
              = (fst (fst st), snd (fst st), snd st))
    by (subst st; destruct (fill_sheet _ _) as [[a b] c]; reflexivity).
  exact (proj1 article_ids_sequence _ _ _ _ _ E).
Defined.

(** C9: when one document fails, the failure is logged and the loop goes
    on: the batch returns normally, the conversion of every file is
    started, in order, every failing file has its error record, and the
    output directory receives what each file yields on its own, whatever
    happened to the files before it. *)
Theorem batch_isolates_failures :
  forall files w,
  exists w',
    process_all_files (Returned tt) files w = (w', Returned tt)
    /\ started (log w') = started (log w) ++ map name files
    /\ (forall f e, In f files -> convert_fails f = Some e ->
                    In (FileFailed (name f) e) (log w'))
    /\ output w' = output w ++ flat_map file_output files.
Proof.
  intros files w. unfold process_all_files.
  destruct files as [|f0 rest].
  - eexists. split; [reflexivity|]. cbn [log output logged map flat_map].
    rewrite started_app, !app_nil_r. repeat split. intros f e [].
  - eexists. split; [reflexivity|].
    generalize (List.length (f0 :: rest)). generalize (f0 :: rest).
    intros files n. cbn [log output logged].
    destruct (file_loop_effect files (logged (Found n) w)) as [Hl Ho].
    rewrite Hl, Ho. cbn [log output logged].
    rewrite !started_app, started_file_records. cbn [started flat_map app].
    rewrite !app_nil_r. repeat split.
    intros f e Hf He. apply in_or_app. left. apply in_or_app. right.
    apply in_flat_map. exists f. split; [exact Hf | apply failure_recorded; exact He].
Qed.

End Batch.

(* ================================================================== *)
(** ** Words and blank texts *)

Module WordFacts.
Import Py PyFacts Specs.

Lemma lstrip_nil : forall s, lstrip s = [] <-> forallb is_space s = true.
Proof.
  induction s as [|c s IH]; simpl; [tauto|].
  destruct (is_space c); simpl; [exact IH|]. split; discriminate.
Qed.

Lemma rstrip_nil : forall s, rstrip s = [] <-> forallb is_space s = true.
Proof.
  induction s as [|c s IH]; [simpl; tauto|].
  rewrite rstrip_cons. cbn [forallb]. rewrite andb_true_iff, <- IH.
  destruct (rstrip s) as [|x u]; cbn [truthy].
  - destruct (is_space c); split; try tauto; try discriminate.
    intros [H _]. discriminate H.
  - split; [discriminate | intros [_ H]; discriminate H].
Qed.

Lemma strip_nil s : strip s = [] <-> forallb is_space s = true.
Proof.
  unfold strip. rewrite rstrip_nil, <- !lstrip_nil, lstrip_idem. tauto.
Qed.

Lemma split_nil : forall s, split s = [] <-> forallb is_space s = true.
Proof.
  induction s as [|c s IH]; [simpl; tauto|].
  cbn [split forallb]. destruct (is_space c); cbn [andb]; [exact IH|].
  split; [|discriminate].
  destruct s as [|c' s]; [discriminate|].
  destruct (is_space c'); [discriminate|].
  destruct (split (c' :: s)); discriminate.
Qed.

Lemma split_strip_nil s : strip s = [] -> split s = [].
Proof. rewrite strip_nil, split_nil. tauto. Qed.

Lemma isspace_strip s : isspace s = true -> strip s = [].
Proof. rewrite strip_nil. destruct s; [discriminate | exact (fun H => H)]. Qed.

Lemma blank_not_isspace s : strip s = [] -> isspace s = false -> s = [].
Proof.
  rewrite strip_nil. destruct s as [|c s]; [reflexivity|].
  unfold isspace. congruence.
Qed.

Lemma split_wordlike : forall s, Forall wordlike (split s).
Proof.
  induction s as [|c s IH]; [constructor|].
  cbn [split]. destruct (is_space c) eqn:Hc; [exact IH|].
  destruct s as [|c' s]; [repeat constructor; exact Hc|].
  destruct (is_space c').
  - constructor; [exact Hc | exact IH].
  - destruct (split (c' :: s)) as [|w ws].
    + repeat constructor. exact Hc.
    + constructor; [exact Hc|]. inversion IH. assumption.
Qed.

Lemma skipn_Forall {A} (P : A -> Prop) : forall n l,
  Forall P l -> Forall P (skipn n l).
Proof.
  induction n as [|n IH]; intros l H; [exact H|].
  destruct l; [constructor|]. inversion H. apply IH. assumption.
Qed.

Lemma join_not_blank sep ws :
  Forall wordlike ws -> ws <> [] -> strip (join sep ws) <> [].
Proof.
  intros Hw Hne E. apply strip_nil in E.
  destruct ws as [|w ws]; [congruence|].
  inversion Hw as [|? ? Hw1 _]; subst.
  destruct w as [|c w]; [destruct Hw1|]. cbn [wordlike] in Hw1.
  destruct ws; cbn [join app forallb] in E; rewrite Hw1 in E; discriminate E.
Qed.

End WordFacts.

(* ================================================================== *)
(** ** FormatProcessor.process_runs *)

Module RunFormatter.
Import Py PyFacts WordFacts FormatProcessor DocumentProcessor Samples Specs.

Lemma blank_words r : blank r = true -> split (Run.text r) = [].
Proof.
  unfold blank. intros H. apply split_strip_nil.
  destruct (strip (Run.text r)); [reflexivity | discriminate H].
Qed.

Lemma words_not_blank r : split (Run.text r) <> [] -> blank r = false.
Proof.
  intros H. destruct (blank r) eqn:Hb; [|reflexivity].
  elim H. apply blank_words. exact Hb.
Qed.

Lemma not_blank_words r : blank r = false -> 1 <= List.length (split (Run.text r)).
Proof.
  unfold blank. intros H.
  destruct (split (Run.text r)) eqn:E; [|simpl; lia].
  apply split_nil in E. apply strip_nil in E. rewrite E in H. discriminate H.
Qed.

(** *** The cases of one iteration *)

Lemma step_blank skip st r :
  blank r = true ->
  step skip st r
  = if truthy (current_text st) && isspace (Run.text r)
    then push_text (Run.text r) st else st.
Proof. unfold step, blank. intros ->. reflexivity. Qed.

Lemma step_empty skip st r : Run.text r = [] -> step skip st r = st.
Proof.
  intros H. rewrite step_blank by (unfold blank; rewrite H; reflexivity).
  rewrite H. cbn [isspace]. rewrite andb_false_r. reflexivity.
Qed.

Lemma step_space skip st r :
  isspace (Run.text r) = true ->
  step skip st r
  = if truthy (current_text st) then push_text (Run.text r) st else st.
Proof.
  intros H. rewrite step_blank.
  - rewrite H, andb_true_r. reflexivity.
  - unfold blank. rewrite (isspace_strip _ H). reflexivity.
Qed.

Lemma step_skipped skip st r :
  blank r = false ->
  words_processed st + List.length (split (Run.text r)) <= skip ->
  step skip st r
  = set_words_processed
      (words_processed st + List.length (split (Run.text r))) st.
Proof.
  intros Hb Hle. pose proof (not_blank_words r Hb) as Hw.
  unfold step, blank in *. rewrite Hb.
  destruct (Nat.ltb_spec (words_processed st) skip); [|lia].
  destruct (Nat.leb_spec
              (List.length (split (Run.text r)) + words_processed st) skip);
    [reflexivity | lia].
Qed.

Lemma step_straddle skip st r :
  words_processed st < skip ->
  skip < words_processed st + List.length (split (Run.text r)) ->
  step skip st r
  = append_run (get_run_formatting r)
      (join (lit " ")
         (skipn (skip - words_processed st) (split (Run.text r))))
      (set_words_processed skip st).
Proof.
  intros Hlt Hgt.
  assert (Hb : blank r = false).
  { apply words_not_blank. intros E. rewrite E in Hgt. simpl in Hgt. lia. }
  unfold step, blank in *. rewrite Hb.
  destruct (Nat.ltb_spec (words_processed st) skip); [|lia].
  destruct (Nat.leb_spec
              (List.length (split (Run.text r)) + words_processed st) skip);
    [lia | reflexivity].
Qed.

Lemma step_exhausted skip st r :
  blank r = false ->
  skip <= words_processed st ->
  step skip st r = append_run (get_run_formatting r) (Run.text r) st.
Proof.
  intros Hb Hle. unfold step, blank in *. rewrite Hb.
  destruct (Nat.ltb_spec (words_processed st) skip); [lia | reflexivity].
Qed.

(** *** The output depends on the core of the state only *)

Lemma flush_core st st' : core st = core st' -> flush st = flush st'.
Proof.
  unfold core, flush. intros H. injection H as H1 H2 H3.
  rewrite H1, H2, H3. reflexivity.
Qed.

Lemma append_run_core f t st st' :
  core st = core st' -> core (append_run f t st) = core (append_run f t st').
Proof.
  intros H. pose proof (flush_core _ _ H) as Hf.
  unfold core in *. injection H as H1 H2 H3. unfold append_run.
  rewrite H2. destruct (format_differs f (current_format st'));
    cbn [formatted_text current_format current_text]; congruence.
Qed.

Lemma append_run_words f t st :
  words_processed (append_run f t st) = words_processed st.
Proof. unfold append_run. destruct (format_differs _ _); reflexivity. Qed.

Lemma step_exhausted_core skip skip' st st' r :
  skip <= words_processed st -> skip' <= words_processed st' ->
  core st = core st' ->
  core (step skip st r) = core (step skip' st' r)
  /\ skip <= words_processed (step skip st r)
  /\ skip' <= words_processed (step skip' st' r).
Proof.
  intros H1 H2 Hc. destruct (blank r) eqn:Hb.
  - rewrite !step_blank by exact Hb.
    assert (Ht : current_text st = current_text st')
      by (unfold core in Hc; congruence).
    rewrite Ht.
    destruct (truthy (current_text st') && isspace (Run.text r)).
    + repeat split; [|exact H1|exact H2].
      unfold core in *. unfold push_text.
      cbn [formatted_text current_format current_text]. congruence.
    + auto.
  - rewrite !step_exhausted by assumption.
    rewrite !append_run_words. split; [|split; assumption].
    apply append_run_core. exact Hc.
Qed.

Lemma loop_exhausted_core : forall rest skip skip' st st',
  skip <= words_processed st -> skip' <= words_processed st' ->
  core st = core st' ->
  core (run_loop skip rest st) = core (run_loop skip' rest st').
Proof.
  induction rest as [|r rest IH]; intros skip skip' st st' H1 H2 Hc; [exact Hc|].
  cbn [run_loop fold_left].
  destruct (step_exhausted_core skip skip' st st' r H1 H2 Hc) as [Hc' [H1' H2']].
  apply (IH skip skip' _ _ H1' H2' Hc').
Qed.

(** *** The runs that are skipped whole *)

Lemma set_words_same st : set_words_processed (words_processed st) st = st.
Proof. destruct st. reflexivity. Qed.

Lemma loop_skipped : forall pre skip st,
  current_text st = [] ->
  words_processed st + word_count pre <= skip ->
  run_loop skip pre st
  = set_words_processed (words_processed st + word_count pre) st.
Proof.
  induction pre as [|r pre IH]; intros skip st Hct Hle.
  - cbn [run_loop fold_left word_count map list_sum].
    rewrite Nat.add_0_r, set_words_same. reflexivity.
  - change (word_count (r :: pre))
      with (List.length (split (Run.text r)) + word_count pre) in *.
    cbn [run_loop fold_left]. destruct (blank r) eqn:Hb.
    + rewrite step_blank by exact Hb. rewrite Hct. cbn [truthy andb].
      rewrite (blank_words r Hb) in *. cbn [List.length plus] in *.
      apply IH; assumption.
    + rewrite step_skipped by (assumption || lia).
      fold (run_loop skip pre
              (set_words_processed
                 (words_processed st + List.length (split (Run.text r))) st)).
      rewrite IH by (cbn [current_text words_processed set_words_processed];
                     assumption || lia).
      unfold set_words_processed.
      cbn [formatted_text current_format current_text words_processed].
      f_equal. lia.
Qed.

(** *** The text that is kept once the quota is used up *)

Lemma flush_render st segs :
  formatted_text st = map render segs ->
  exists segs1,
    flush st = map render segs1
    /\ concat (map snd segs1) = concat (map snd segs) ++ concat (current_text st).
Proof.
  intros H. unfold flush. destruct (current_text st) as [|t ts]; cbn [truthy].
  - exists segs. rewrite app_nil_r. split; [exact H | reflexivity].
  - exists (segs ++ [(current_format st, concat (t :: ts))]).
    rewrite !map_app, concat_app, H. cbn [map render fst snd].
    split; [reflexivity|]. cbn [concat]. rewrite app_nil_r. reflexivity.
Qed.

Lemma truthy_app {A} (l : list A) x : truthy (l ++ [x]) = true.
Proof. destruct l; reflexivity. Qed.

Lemma loop_kept : forall post skip st segs,
  skip <= words_processed st ->
  formatted_text st = map render segs ->
  exists segs',
    flush (run_loop skip post st) = map render segs'
    /\ concat (map snd segs')
       = concat (map snd segs) ++ concat (current_text st)
         ++ concat (map Run.text
                      (if truthy (current_text st) then post else drop_blank post)).
Proof.
  induction post as [|r post IH]; intros skip st segs Hwp Hft.
  - destruct (flush_render st segs Hft) as [segs1 [E1 E2]].
    exists segs1. split; [exact E1|]. rewrite E2.
    destruct (truthy (current_text st)); cbn [drop_blank map concat];
      rewrite app_nil_r; reflexivity.
  - change (run_loop skip (r :: post) st) with (run_loop skip post (step skip st r)).
    destruct (blank r) eqn:Hb.
    + rewrite step_blank by exact Hb.
      destruct (truthy (current_text st)) eqn:Ht; cbn [andb].
      * destruct (isspace (Run.text r)) eqn:Hs.
        -- destruct (IH skip (push_text (Run.text r) st) segs Hwp Hft)
             as [segs' [E1 E2]].
           exists segs'. split; [exact E1|]. rewrite E2.
           cbn [push_text current_text]. rewrite truthy_app, concat_app.
           cbn [map concat]. rewrite app_nil_r, <- !app_assoc. reflexivity.
        -- destruct (IH skip st segs Hwp Hft) as [segs' [E1 E2]].
           exists segs'. split; [exact E1|]. rewrite E2, Ht.
           assert (Hr : Run.text r = []).
           { apply blank_not_isspace; [|exact Hs]. unfold blank in Hb.
             destruct (strip (Run.text r)); [reflexivity | discriminate Hb]. }
           cbn [map concat]. rewrite Hr. reflexivity.
      * destruct (IH skip st segs Hwp Hft) as [segs' [E1 E2]].
        exists segs'. split; [exact E1|]. rewrite E2, Ht.
        cbn [drop_blank]. rewrite Hb. reflexivity.
    + rewrite step_exhausted by assumption.
      assert (Hrhs : (if truthy (current_text st) then r :: post
                      else drop_blank (r :: post)) = r :: post).
      { cbn [drop_blank]. rewrite Hb. destruct (truthy _); reflexivity. }
      rewrite Hrhs. cbn [map concat].
      unfold append_run.
      destruct (format_differs (get_run_formatting r) (current_format st)).
      * destruct (flush_render st segs Hft) as [segs1 [F1 F2]].
        match goal with |- context [run_loop skip post ?st1] =>
          destruct (IH skip st1 segs1 Hwp F1) as [segs' [E1 E2]] end.
        exists segs'. split; [exact E1|]. rewrite E2, F2.
        cbn [current_text truthy concat]. rewrite app_nil_r, <- !app_assoc.
        reflexivity.
      * match goal with |- context [run_loop skip post ?st1] =>
          destruct (IH skip st1 segs Hwp Hft) as [segs' [E1 E2]] end.
        exists segs'. split; [exact E1|]. rewrite E2.
        cbn [current_text]. rewrite truthy_app, concat_app.
        cbn [concat]. rewrite app_nil_r, <- !app_assoc. reflexivity.
Qed.

Lemma append_run_fresh f t st :
  formatted_text st = [] -> current_text st = [] ->
  formatted_text (append_run f t st) = []
  /\ current_text (append_run f t st) = [t].
Proof.
  intros H1 H2. unfold append_run, flush. rewrite H1, H2.
  destruct (format_differs _ _); split; reflexivity.
Qed.

Lemma skipn_nonempty {A} n (l : list A) : n < List.length l -> skipn n l <> [].
Proof.
  intros H E. apply (f_equal (@List.length A)) in E.
  rewrite length_skipn in E. simpl in E. lia.
Qed.

Lemma run_loop_app skip pre post st :
  run_loop skip (pre ++ post) st = run_loop skip post (run_loop skip pre st).
Proof. apply fold_left_app. Qed.

Lemma prefix_skipped skip pre :
  word_count pre <= skip ->
  run_loop skip pre init = set_words_processed (word_count pre) init.
Proof.
  intros H. apply (loop_skipped pre skip init); [reflexivity | exact H].
Qed.

(** The raw body [process_runs] returns is the markup of a list of style
    segments whose texts, put together, are the texts of the runs after
    the skipped words, character for character: when the skipped words end
    with a run, every later run from the first non-blank one on; when they
    end inside a run, the remaining words of that run joined by single
    spaces, then every later run; and nothing when the runs have no more
    words than are skipped. *)
Lemma process_runs_keeps_text :
  (forall t pre post skip,
      word_count pre = skip ->
      exists segs,
        process_runs (Paragraph.Build_t t (pre ++ post)) skip
        = concat (map render segs)
        /\ concat (map snd segs) = concat (map Run.text (drop_blank post)))
  /\ (forall t pre r rest skip,
        word_count pre < skip ->
        skip < word_count pre + List.length (split (Run.text r)) ->
        exists segs,
          process_runs (Paragraph.Build_t t (pre ++ r :: rest)) skip
          = concat (map render segs)
          /\ concat (map snd segs)
             = join (lit " ")
                 (skipn (skip - word_count pre) (split (Run.text r)))
               ++ concat (map Run.text rest))
  /\ (forall t runs skip,
        word_count runs <= skip ->
        process_runs (Paragraph.Build_t t runs) skip = []).
Proof.
  split; [|split].
  - intros t pre post skip Hwc. unfold process_runs. cbn [Paragraph.runs].
    rewrite run_loop_app, prefix_skipped by lia.
    destruct (loop_kept post skip (set_words_processed (word_count pre) init) [])
      as [segs [E1 E2]]; [cbn; lia | reflexivity |].
    exists segs. rewrite E1. split; [reflexivity | exact E2].
  - intros t pre r rest skip Hlt Hgt. unfold process_runs. cbn [Paragraph.runs].
    rewrite run_loop_app, prefix_skipped by lia.
    change (run_loop skip (r :: rest) ?st)
      with (run_loop skip rest (step skip st r)).
    rewrite step_straddle by (cbn; lia).
    cbn [words_processed set_words_processed init].
    match goal with |- context [run_loop skip rest (append_run ?f ?j ?st0)] =>
      destruct (append_run_fresh f j st0 eq_refl eq_refl) as [A1 A2];
      destruct (loop_kept rest skip (append_run f j st0) [])
        as [segs [E1 E2]];
      [ rewrite append_run_words; cbn; lia | exact A1 | ];
      rewrite A2 in E2
    end.
    exists segs. rewrite E1. split; [reflexivity|]. rewrite E2.
    cbn [map concat truthy app]. rewrite app_nil_r. reflexivity.
  - intros t runs skip Hwc. unfold process_runs. cbn [Paragraph.runs].
    rewrite prefix_skipped by exact Hwc. reflexivity.
Qed.

Lemma process_runs_keeps_text_witness :
  exists segs,
    process_runs section_two 2 = concat (map render segs)
    /\ concat (map snd segs) = lit "Hello world".
Proof.
  exact (proj1 process_runs_keeps_text (lit "Section II: Hello world")
           [run "Section II: " false false]
           [run "Hello " true false; run "world" false false] 2 eq_refl).
Defined.

(** *** Blank runs *)

Lemma format_differs_same f : format_differs f f = false.
Proof. destruct f as [[]|]; reflexivity. Qed.

Lemma first_run_state r :
  blank r = false ->
  core (step 0 init r) = ([], get_run_formatting r, [Run.text r]).
Proof.
  intros Hb. rewrite step_exhausted by (assumption || cbn; lia).
  unfold append_run, core.
  destruct (format_differs (get_run_formatting r) (current_format init)) eqn:E;
    [reflexivity|].
  cbn [formatted_text current_format current_text init app].
  destruct (get_run_formatting r); [discriminate E | reflexivity].
Qed.

Lemma flush_of_core st ft cf ct :
  core st = (ft, cf, ct) ->
  flush st = if truthy ct then ft ++ [wrap cf (concat ct)] else ft.
Proof.
  unfold core, flush. intros H. injection H as -> -> ->. reflexivity.
Qed.

(** C10: a run with an empty text leaves the state of [process_runs] as
    it is, so it can be removed from the paragraph, and two runs of one
    style around it end in one span.  A run of whitespace is appended to
    the open accumulator when some text is pending, whatever its own
    style, and is dropped otherwise; so a blank run in front is dropped,
    and whitespace after a run is rendered inside the style of that run. *)
Theorem process_runs_blank_runs :
  (forall skip st r, Run.text r = [] -> step skip st r = st)
  /\ (forall skip st r,
        isspace (Run.text r) = true ->
        step skip st r
        = if truthy (current_text st) then push_text (Run.text r) st else st)
  /\ (forall t pre r post skip,
        Run.text r = [] ->
        process_runs (Paragraph.Build_t t (pre ++ r :: post)) skip
        = process_runs (Paragraph.Build_t t (pre ++ post)) skip)
  /\ (forall t a e b,
        blank a = false -> blank b = false -> Run.text e = [] ->
        get_run_formatting a = get_run_formatting b ->
        process_runs (Paragraph.Build_t t [a; e; b]) 0
        = wrap (get_run_formatting a) (Run.text a ++ Run.text b))
  /\ (forall t r rest skip,
        blank r = true ->
        process_runs (Paragraph.Build_t t (r :: rest)) skip
        = process_runs (Paragraph.Build_t t rest) skip)
  /\ (forall t a w,
        blank a = false -> isspace (Run.text w) = true ->
        process_runs (Paragraph.Build_t t [a; w]) 0
        = wrap (get_run_formatting a) (Run.text a ++ Run.text w)).
Proof.
  split; [exact step_empty|]. split; [exact step_space|].
  split; [|split; [|split]].
  - intros t pre r post skip Hr. unfold process_runs. cbn [Paragraph.runs].
    rewrite !run_loop_app.
    change (run_loop skip (r :: post) ?st)
      with (run_loop skip post (step skip st r)).
    rewrite step_empty by exact Hr. reflexivity.
  - intros t a e b Ha Hb He Hf. unfold process_runs. cbn [Paragraph.runs].
    change (run_loop 0 [a; e; b] init)
      with (step 0 (step 0 (step 0 init a) e) b).
    rewrite (step_empty 0 _ e He).
    pose proof (first_run_state a Ha) as Hc.
    rewrite (step_exhausted 0 _ b Hb) by lia.
    assert (Hc' : core (append_run (get_run_formatting b) (Run.text b)
                          (step 0 init a))
                  = ([], get_run_formatting a, [Run.text a; Run.text b])).
    { unfold core in *. injection Hc as H1 H2 H3. unfold append_run.
      rewrite H2, <- Hf, format_differs_same.
      cbn [formatted_text current_format current_text].
      rewrite H1, H3. reflexivity. }
    rewrite (flush_of_core _ _ _ _ Hc'). cbn [truthy app concat].
    rewrite !app_nil_r. reflexivity.
  - intros t r rest skip Hr. unfold process_runs. cbn [Paragraph.runs].
    change (run_loop skip (r :: rest) init)
      with (run_loop skip rest (step skip init r)).
    rewrite step_blank by exact Hr. reflexivity.
  - intros t a w Ha Hw. unfold process_runs. cbn [Paragraph.runs].
    change (run_loop 0 [a; w] init) with (step 0 (step 0 init a) w).
    pose proof (first_run_state a Ha) as Hc.
    rewrite (step_space 0 _ w Hw).
    assert (Ht : current_text (step 0 init a) = [Run.text a])
      by (unfold core in Hc; congruence).
    rewrite Ht. cbn [truthy].
    assert (Hc' : core (push_text (Run.text w) (step 0 init a))
                  = ([], get_run_formatting a, [Run.text a; Run.text w])).
    { unfold core in *. injection Hc as H1 H2 H3. unfold push_text.
      cbn [formatted_text current_format current_text].
      rewrite H1, H2, H3. reflexivity. }
    rewrite (flush_of_core _ _ _ _ Hc'). cbn [truthy app concat].
    rewrite !app_nil_r. reflexivity.
Qed.

Lemma process_runs_blank_runs_witness :
  process_runs
    (Paragraph.Build_t []
       [run "one " true false; run "" false true; run "span" true false]) 0
  = bold_open ++ lit "one span</span>"
  /\ process_runs
       (Paragraph.Build_t [] [run "bold" true false; run "  " false false]) 0
     = bold_open ++ lit "bold  </span>".
Proof.
  split.
  - exact (proj1 (proj2 (proj2 (proj2 process_runs_blank_runs))) []
             (run "one " true false) (run "" false true) (run "span" true false)
             eq_refl eq_refl eq_refl eq_refl).
  - exact (proj2 (proj2 (proj2 (proj2 (proj2 process_runs_blank_runs)))) []
             (run "bold" true false) (run "  " false false) eq_refl eq_refl).
Defined.

End RunFormatter.

(* ================================================================== *)
(** ** TextProcessor.normalize_text and the words of a text *)

Module NormalizeText.
Import Py Re PyFacts ReFacts WordFacts TextProcessor DocumentProcessor Specs.

Lemma squeeze_true_head : forall s,
  lstrip (squeeze_from is_space " "%char true s)
  = squeeze_from is_space " "%char true s.
Proof.
  induction s as [|c s IH]; [reflexivity|].
  destruct (is_space c) eqn:Hc.
  - rewrite squeeze_from_in by exact Hc. exact IH.
  - rewrite squeeze_from_out by exact Hc. simpl. rewrite Hc. reflexivity.
Qed.

Lemma join_cons_word sep c w ws :
  join sep ((c :: w) :: ws) = c :: join sep (w :: ws).
Proof. destruct ws; reflexivity. Qed.

Lemma join_nonempty sep w ws : wordlike w -> join sep (w :: ws) <> [].
Proof.
  destruct w as [|c w]; [intros []|]. intros _.
  destruct ws; discriminate.
Qed.

Lemma split_head_word c s :
  is_space c = false -> exists w ws, split (c :: s) = (c :: w) :: ws.
Proof.
  intros Hc. cbn [split]. rewrite Hc.
  destruct s as [|c' s]; [exists [], []; reflexivity|].
  destruct (is_space c'); [exists [], (split (c' :: s)); reflexivity|].
  destruct (split (c' :: s)) as [|w ws];
    [exists [], [] | exists w, ws]; reflexivity.
Qed.

(** The whitespace pass, whatever the scan started in, stripped on both
    sides, is the words joined by single spaces. *)
Lemma join_split_squeeze : forall s b,
  join [" "%char] (split s)
  = rstrip (lstrip (squeeze_from is_space " "%char b s)).
Proof.
  induction s as [|c s IH]; intros b; [reflexivity|].
  destruct (is_space c) eqn:Hc.
  - rewrite squeeze_from_in by exact Hc. cbn [split]. rewrite Hc.
    rewrite (IH true). destruct b; [reflexivity|]. reflexivity.
  - rewrite squeeze_from_out by exact Hc.
    assert (Hl : forall X, lstrip (c :: X) = c :: X)
      by (intros X; simpl; rewrite Hc; reflexivity).
    rewrite Hl, rstrip_keep by exact Hc.
    destruct s as [|c' s]; [cbn [split]; rewrite Hc; reflexivity|].
    destruct (is_space c') eqn:Hc'.
    + assert (Hs : split (c :: c' :: s) = [c] :: split (c' :: s))
        by (cbn [split]; rewrite Hc, Hc'; reflexivity).
      rewrite Hs. specialize (IH false).
      rewrite squeeze_from_in in * by exact Hc'.
      assert (Hl' : forall X, lstrip (" "%char :: X) = lstrip X) by reflexivity.
      rewrite Hl', squeeze_true_head in IH.
      rewrite rstrip_cons, <- IH.
      pose proof (split_wordlike (c' :: s)) as Hw.
      destruct (split (c' :: s)) as [|w ws]; [reflexivity|].
      inversion Hw as [|? ? Hw1 _]; subst.
      change (join [" "%char] ([c] :: w :: ws))
        with (c :: " "%char :: join [" "%char] (w :: ws)).
      destruct (join [" "%char] (w :: ws)) eqn:Ej;
        [elim (join_nonempty _ _ _ Hw1 Ej) | reflexivity].
    + destruct (split_head_word c' s Hc') as [w [ws Hs']].
      assert (Hs : split (c :: c' :: s) = (c :: c' :: w) :: ws)
        by (cbn [split] in *; rewrite Hc, Hc' in *; rewrite Hs'; reflexivity).
      rewrite Hs, join_cons_word, <- Hs'. f_equal.
      rewrite (IH false), squeeze_from_out by exact Hc'.
      simpl lstrip. rewrite Hc'. reflexivity.
Qed.

Lemma split_squeeze : forall s b,
  split (squeeze_from is_space " "%char b s) = split s.
Proof.
  induction s as [|c s IH]; intros b; [reflexivity|].
  destruct (is_space c) eqn:Hc.
  - rewrite squeeze_from_in by exact Hc.
    assert (Hs : split (c :: s) = split s) by (cbn [split]; rewrite Hc; reflexivity).
    rewrite Hs. destruct b; [apply IH|].
    cbn [split]. change (is_space " "%char) with true. cbv iota. apply IH.
  - rewrite squeeze_from_out by exact Hc.
    destruct s as [|c' s]; [reflexivity|].
    specialize (IH false). destruct (is_space c') eqn:Hc'.
    + rewrite squeeze_from_in in * by exact Hc'.
      cbn [split] in *. rewrite Hc, Hc' in *.
      change (is_space " "%char) with true in *. cbv iota in *.
      rewrite IH. reflexivity.
    + rewrite squeeze_from_out in * by exact Hc'.
      remember (squeeze_from is_space " "%char false s) as X.
      assert (H1 : split (c :: c' :: X)
                   = match split (c' :: X) with
                     | w :: ws => (c :: w) :: ws | [] => [[c]] end)
        by (cbn [split]; rewrite Hc, Hc'; reflexivity).
      assert (H2 : split (c :: c' :: s)
                   = match split (c' :: s) with
                     | w :: ws => (c :: w) :: ws | [] => [[c]] end)
        by (cbn [split]; rewrite Hc, Hc'; reflexivity).
      rewrite H1, H2, IH. reflexivity.
Qed.

Lemma split_lstrip : forall s, split (lstrip s) = split s.
Proof.
  induction s as [|c s IH]; [reflexivity|].
  cbn [lstrip split]. destruct (is_space c) eqn:Hc; [exact IH|].
  cbn [split]. rewrite Hc. reflexivity.
Qed.

Lemma split_rstrip : forall s, split (rstrip s) = split s.
Proof.
  induction s as [|c s IH]; [reflexivity|].
  destruct (is_space c) eqn:Hc.
  - assert (Hs : split (c :: s) = split s) by (cbn [split]; rewrite Hc; reflexivity).
    rewrite Hs, rstrip_cons, Hc.
    destruct (rstrip s) as [|x u] eqn:E; cbn [truthy].
    + rewrite <- IH. reflexivity.
    + rewrite <- IH. cbn [split]. rewrite Hc. reflexivity.
  - rewrite rstrip_keep by exact Hc.
    destruct s as [|c' s]; [reflexivity|].
    destruct (is_space c') eqn:Hc'.
    + assert (Hs : split (c :: c' :: s) = [c] :: split (c' :: s))
        by (cbn [split]; rewrite Hc, Hc'; reflexivity).
      rewrite Hs, <- IH.
      rewrite rstrip_cons, Hc'.
      destruct (rstrip s) as [|x u] eqn:E; cbn [truthy];
        cbn [split]; rewrite ?Hc, ?Hc'; reflexivity.
    + rewrite (rstrip_keep c' s Hc') in *.
      assert (H1 : split (c :: c' :: rstrip s)
                   = match split (c' :: rstrip s) with
                     | w :: ws => (c :: w) :: ws | [] => [[c]] end)
        by (cbn [split]; rewrite Hc, Hc'; reflexivity).
      assert (H2 : split (c :: c' :: s)
                   = match split (c' :: s) with
                     | w :: ws => (c :: w) :: ws | [] => [[c]] end)
        by (cbn [split]; rewrite Hc, Hc'; reflexivity).
      rewrite H1, H2, IH. reflexivity.
Qed.

Lemma split_normalize s : split (normalize_text s) = split s.
Proof.
  unfold normalize_text, strip, sub_spaces, squeeze.
  rewrite split_rstrip, split_lstrip. apply split_squeeze.
Qed.

(** X1: [normalize_text] returns the words of the text joined by single
    spaces, i.e. [' '.join(text.split())]; it keeps the words as they are,
    and doing it twice changes nothing more. *)
Theorem normalize_text_joins_words :
  forall s,
    normalize_text s = join (lit " ") (split s)
    /\ split (normalize_text s) = split s
    /\ normalize_text (normalize_text s) = normalize_text s.
Proof.
  assert (H : forall x, normalize_text x = join (lit " ") (split x)).
  { intros x. unfold normalize_text, strip, sub_spaces, squeeze.
    symmetry. apply join_split_squeeze. }
  intros s. split; [apply H|]. split; [apply split_normalize|].
  rewrite (H (normalize_text s)), split_normalize, <- H. reflexivity.
Qed.

End NormalizeText.

(* ================================================================== *)
(** ** Words, labels and titles *)

Module Labels.
Import Py Re PyFacts ReFacts WordFacts TextProcessor DocumentProcessor.
Import Specs Vocabulary NormalizeText.

(** *** Words have no whitespace *)

Lemma split_spacefree : forall s, Forall (fun w => spacefree w = true) (split s).
Proof.
  induction s as [|c s IH]; [constructor|].
  cbn [split]. destruct (is_space c) eqn:Hc; [exact IH|].
  assert (H1 : spacefree [c] = true) by (unfold spacefree; simpl; rewrite Hc; reflexivity).
  destruct s as [|c' s]; [repeat constructor; exact H1|].
  destruct (is_space c').
  - constructor; [exact H1 | exact IH].
  - destruct (split (c' :: s)) as [|w ws]; [repeat constructor; exact H1|].
    inversion IH as [|? ? Hw Hws]; subst.
    constructor; [|exact Hws].
    unfold spacefree in *. simpl. rewrite Hc. exact Hw.
Qed.

Lemma spacefree_lstrip w : spacefree w = true -> lstrip w = w.
Proof.
  destruct w as [|c w]; [reflexivity|]. unfold spacefree. simpl.
  destruct (is_space c); [discriminate | reflexivity].
Qed.

Lemma spacefree_rstrip : forall w, spacefree w = true -> rstrip w = w.
Proof.
  induction w as [|c w IH]; [reflexivity|].
  unfold spacefree in *. simpl forallb. intros H.
  apply andb_true_iff in H as [Hc Hw].
  rewrite rstrip_keep by (destruct (is_space c); [discriminate | reflexivity]).
  rewrite IH by exact Hw. reflexivity.
Qed.

Lemma spacefree_strip w : spacefree w = true -> strip w = w.
Proof.
  intros H. unfold strip. rewrite spacefree_lstrip by exact H.
  apply spacefree_rstrip. exact H.
Qed.

(** *** The trailing run of [,] and [:] *)

Lemma drop_cons c s :
  drop_trailing_punct (c :: s)
  = if truthy (drop_trailing_punct s) then c :: drop_trailing_punct s
    else if is_label_punct c then [] else [c].
Proof. simpl. destruct (drop_trailing_punct s); reflexivity. Qed.

Lemma drop_split : forall s,
  exists tail,
    s = drop_trailing_punct s ++ tail /\ all_punct tail = true.
Proof.
  induction s as [|c s [tail [E Ht]]]; [exists []; split; reflexivity|].
  rewrite drop_cons. destruct (drop_trailing_punct s) as [|x u] eqn:Ed; cbn [truthy].
  - destruct (is_label_punct c) eqn:Hc.
    + exists (c :: s). split; [reflexivity|].
      cbn [app] in E. subst tail. unfold all_punct in *. simpl. rewrite Hc. exact Ht.
    + exists s. split; [reflexivity|]. cbn [app] in E. subst tail. exact Ht.
  - exists tail. split; [|exact Ht]. cbn [app]. f_equal. exact E.
Qed.

Lemma drop_last : forall s t c,
  drop_trailing_punct s = t ++ [c] -> is_label_punct c = false.
Proof.
  induction s as [|a s IH]; intros t c.
  - destruct t; discriminate.
  - rewrite drop_cons. destruct (drop_trailing_punct s) as [|x u]; cbn [truthy].
    + destruct (is_label_punct a) eqn:Ha.
      * destruct t; discriminate.
      * destruct t as [|y t]; simpl; intros H.
        -- injection H as <-. exact Ha.
        -- injection H as _ H. destruct t; discriminate.
    + destruct t as [|y t]; simpl; intros H; [discriminate|].
      injection H as _ H. apply (IH t c). exact H.
Qed.

Lemma drop_nil : forall s, drop_trailing_punct s = [] <-> all_punct s = true.
Proof.
  unfold all_punct.
  induction s as [|c s IH]; [simpl; tauto|].
  rewrite drop_cons. cbn [forallb]. rewrite andb_true_iff, <- IH.
  destruct (drop_trailing_punct s) as [|x u]; cbn [truthy].
  - destruct (is_label_punct c); split; try tauto; try discriminate.
    intros [H _]. discriminate H.
  - split; [discriminate | intros [_ H]; discriminate H].
Qed.

Lemma drop_idem : forall s,
  drop_trailing_punct (drop_trailing_punct s) = drop_trailing_punct s.
Proof.
  induction s as [|a s IH]; [reflexivity|].
  rewrite drop_cons. destruct (drop_trailing_punct s) as [|x u] eqn:E; cbn [truthy].
  - destruct (is_label_punct a) eqn:Ha; [reflexivity|].
    simpl. rewrite Ha. reflexivity.
  - rewrite drop_cons, IH. reflexivity.
Qed.

Lemma drop_app_punct : forall t tail,
  all_punct tail = true ->
  drop_trailing_punct (t ++ tail) = drop_trailing_punct t.
Proof.
  induction t as [|c t IH]; intros tail H.
  - apply drop_nil. exact H.
  - cbn [app]. rewrite !drop_cons, IH by exact H. reflexivity.
Qed.

Lemma spacefree_app a b :
  spacefree (a ++ b) = spacefree a && spacefree b.
Proof. apply forallb_app. Qed.

Lemma spacefree_drop w : spacefree w = true -> spacefree (drop_trailing_punct w) = true.
Proof.
  intros H. destruct (drop_split w) as [tail [E _]].
  rewrite E, spacefree_app in H. apply andb_true_iff in H. tauto.
Qed.

Lemma spacefree_not_newline w c t :
  spacefree w = true -> rev w = c :: t -> (c =? newline)%char = false.
Proof.
  intros H E. assert (Hin : In c w) by (apply in_rev; rewrite E; left; reflexivity).
  unfold spacefree in H. rewrite forallb_forall in H. specialize (H c Hin).
  destruct (Ascii.eqb_spec c newline) as [->|]; [discriminate H | reflexivity].
Qed.

(** On a word, [clean_first_word] only drops the trailing punctuation. *)
Lemma clean_word w :
  spacefree w = true -> clean_first_word w = drop_trailing_punct w.
Proof.
  intros H. unfold clean_first_word.
  assert (E : sub_trailing_punct w = drop_trailing_punct w).
  { unfold sub_trailing_punct. destruct (rev w) as [|c t] eqn:Er.
    - apply (f_equal (@rev ascii)) in Er. rewrite rev_involutive in Er.
      subst w. reflexivity.
    - rewrite (spacefree_not_newline w c t H Er). reflexivity. }
  rewrite E. apply spacefree_strip. apply spacefree_drop. exact H.
Qed.

Lemma endswith_last s c :
  endswith s [c] = true -> exists t, s = t ++ [c].
Proof.
  unfold endswith. cbn [rev app]. intros H.
  destruct (rev s) as [|x r] eqn:E; [discriminate H|].
  cbn [startswith] in H. apply andb_true_iff in H as [H _].
  apply Ascii.eqb_eq in H. subst x. exists (rev r).
  apply (f_equal (@rev ascii)) in E. rewrite rev_involutive in E. exact E.
Qed.

Lemma drop_no_punct_end s c :
  is_label_punct c = true -> endswith (drop_trailing_punct s) [c] = false.
Proof.
  intros Hc. destruct (endswith (drop_trailing_punct s) [c]) eqn:E; [|reflexivity].
  apply endswith_last in E as [t E]. apply drop_last in E. congruence.
Qed.

(** X2: for a word (a text without whitespace, as [split] yields),
    [clean_first_word] removes exactly the trailing run of [,] and [:]:
    the word is the result followed by such a run, the result ends with
    neither, and cleaning it again changes nothing. *)
Theorem clean_first_word_on_word :
  forall w,
    spacefree w = true ->
    (exists tail, w = clean_first_word w ++ tail /\ all_punct tail = true)
    /\ endswith (clean_first_word w) (lit ":") = false
    /\ endswith (clean_first_word w) (lit ",") = false
    /\ clean_first_word (clean_first_word w) = clean_first_word w.
Proof.
  intros w H. rewrite !clean_word by exact H.
  rewrite clean_word by (apply spacefree_drop; exact H).
  split; [apply drop_split|].
  split; [apply drop_no_punct_end; reflexivity|].
  split; [apply drop_no_punct_end; reflexivity | apply drop_idem].
Qed.

Lemma clean_first_word_on_word_witness :
  (exists tail,
      lit "Overview,:" = clean_first_word (lit "Overview,:") ++ tail
      /\ all_punct tail = true)
  /\ endswith (clean_first_word (lit "Overview,:")) (lit ":") = false.
Proof.
  split; [exact (proj1 (clean_first_word_on_word (lit "Overview,:") eq_refl))|].
  exact (proj1 (proj2 (clean_first_word_on_word (lit "Overview,:") eq_refl))).
Defined.

(** *** Roman numerals behind a label *)

Lemma roman_stripped s :
  is_roman_numeral s = true <-> In (strip s) roman_tokens.
Proof.
  unfold is_roman_numeral, match_roman, strip. rewrite existsb_exists. split.
  - intros [t [Ht E]]. apply orb_true_iff in E as [E|E]; apply str_eqb_eq in E.
    + rewrite E. exact Ht.
    + apply rstrip_last in E. discriminate E.
  - intros Hin. exists (rstrip (lstrip s)). split; [exact Hin|].
    apply orb_true_iff. left. apply str_eqb_eq. reflexivity.
Qed.

Lemma roman_token_facts t :
  In t roman_tokens ->
  spacefree t = true /\ drop_trailing_punct t = t /\ is_roman_numeral t = true
  /\ upper t = t /\ t <> []
  /\ (forall a c, is_label_punct c = true -> endswith (a ++ t) [c] = false).
Proof.
  intros H.
  repeat (destruct H as [<-|H];
          [ repeat split; try reflexivity; try discriminate;
            intros a c Hc; unfold endswith; rewrite rev_app_distr;
            cbn [rev lit list_ascii_of_string app startswith];
            (destruct (Ascii.eqb_spec c "I"%char) as [->|];
             [discriminate Hc|]);
            (destruct (Ascii.eqb_spec c "V"%char) as [->|];
             [discriminate Hc|]);
            (destruct (Ascii.eqb_spec c "X"%char) as [->|];
             [discriminate Hc|]);
            reflexivity
          | ]).
  destruct H.
Qed.

(** X3: for a word, the Roman-numeral test that [process_paragraph]
    applies to the second word (clean, then match) succeeds exactly when
    the word is one of the ten tokens I..X followed by any run, possibly
    empty, of [,] and [:]. *)
Theorem numeral_word :
  forall w,
    spacefree w = true ->
    (is_roman_numeral (clean_first_word w) = true
     <-> exists t tail,
           In t roman_tokens /\ all_punct tail = true /\ w = t ++ tail).
Proof.
  intros w Hw. rewrite clean_word by exact Hw. rewrite roman_stripped.
  rewrite spacefree_strip by (apply spacefree_drop; exact Hw). split.
  - intros Hin. destruct (drop_split w) as [tail [E Ht]].
    exists (drop_trailing_punct w), tail. auto.
  - intros [t [tail [Hin [Ht E]]]]. subst w.
    rewrite drop_app_punct by exact Ht.
    destruct (roman_token_facts t Hin) as [_ [Hd _]]. rewrite Hd. exact Hin.
Qed.

Lemma numeral_word_witness :
  is_roman_numeral (clean_first_word (lit "VII:,")) = true
  <-> exists t tail,
        In t roman_tokens /\ all_punct tail = true /\ lit "VII:," = t ++ tail.
Proof. exact (numeral_word (lit "VII:,") eq_refl). Defined.

(** *** Upper case *)

Lemma upper_char_idem c : upper_char (upper_char c) = upper_char c.
Proof. destruct c as [[] [] [] [] [] [] [] []]; reflexivity. Qed.

Lemma upper_char_space c : is_space (upper_char c) = is_space c.
Proof. destruct c as [[] [] [] [] [] [] [] []]; reflexivity. Qed.

Lemma upper_char_punct c : is_label_punct (upper_char c) = is_label_punct c.
Proof. destruct c as [[] [] [] [] [] [] [] []]; reflexivity. Qed.

Lemma spacefree_upper : forall w, spacefree (upper w) = spacefree w.
Proof.
  induction w as [|c w IH]; [reflexivity|].
  unfold spacefree, upper in *. simpl. rewrite upper_char_space, IH. reflexivity.
Qed.

Lemma all_punct_upper : forall w, all_punct (upper w) = all_punct w.
Proof.
  induction w as [|c w IH]; [reflexivity|].
  unfold all_punct, upper in *. simpl. rewrite upper_char_punct, IH. reflexivity.
Qed.

Lemma upper_fixed t : (forall c, In c t -> upper_char c = c) -> upper t = t.
Proof.
  intros H. unfold upper. rewrite <- (map_id t) at 2.
  apply map_ext_in. exact H.
Qed.

Lemma in_drop c s : In c (drop_trailing_punct s) -> In c s.
Proof.
  intros H. destruct (drop_split s) as [tail [E _]]. rewrite E.
  apply in_or_app. left. exact H.
Qed.

Lemma upper_drop_upper w :
  upper (drop_trailing_punct (upper w)) = drop_trailing_punct (upper w).
Proof.
  apply upper_fixed. intros c Hc. apply in_drop in Hc.
  unfold upper in Hc. apply in_map_iff in Hc as [x [<- _]].
  apply upper_char_idem.
Qed.

(** *** The title and the skip count *)

Lemma normalize_join s : normalize_text s = join [" "%char] (split s).
Proof.
  unfold normalize_text, strip, sub_spaces, squeeze.
  symmetry. apply join_split_squeeze.
Qed.

Lemma normalize_nil s : normalize_text s = [] <-> split s = [].
Proof.
  rewrite normalize_join. split; [|intros ->; reflexivity].
  pose proof (split_wordlike s) as Hw.
  destruct (split s) as [|w ws]; [reflexivity|].
  inversion Hw as [|? ? Hw1 _]; subst. intros E.
  elim (join_nonempty _ _ _ Hw1 E).
Qed.

Lemma classify_title w0 rest :
  fst (fst (classify w0 rest))
  = if numeral_follows rest
    then clean_first_word (upper w0) ++ lit " " ++ clean_first_word (hd [] rest)
    else clean_first_word (upper w0).
Proof.
  unfold classify, numeral_follows. destruct rest as [|second rest'].
  - destruct (endswith w0 (lit ":")); [reflexivity|].
    destruct (endswith w0 (lit ",")); reflexivity.
  - cbn [hd]. destruct (is_roman_numeral (clean_first_word second)); [|reflexivity].
    destruct (endswith second (lit ":")); [reflexivity|].
    destruct (endswith second (lit ",")); [reflexivity|].
    destruct rest' as [|w2 rest'']; [reflexivity|].
    destruct (str_eqb w2 (lit ":") || str_eqb w2 (lit ",")); reflexivity.
Qed.

Lemma classify_bounds w0 rest :
  1 <= snd (fst (classify w0 rest)) <= 3
  /\ snd (fst (classify w0 rest)) <= S (List.length rest)
  /\ (2 <= snd (fst (classify w0 rest)) <-> numeral_follows rest = true)
  /\ (snd (classify w0 rest) = None
      \/ snd (classify w0 rest) = Some (lit ":")
      \/ snd (classify w0 rest) = Some (lit ","))
  /\ (snd (fst (classify w0 rest)) = 3 ->
      nth_error rest 1 = snd (classify w0 rest)).
Proof.
  unfold classify, numeral_follows. destruct rest as [|second rest'].
  - destruct (endswith w0 (lit ":")); [|destruct (endswith w0 (lit ","))];
      cbn [fst snd List.length]; repeat split; auto; try lia; try discriminate.
  - destruct (is_roman_numeral (clean_first_word second));
      [|cbn [fst snd List.length]; repeat split; auto; try lia; try discriminate].
    destruct (endswith second (lit ":"));
      [cbn [fst snd List.length]; repeat split; auto; try lia; try discriminate|].
    destruct (endswith second (lit ","));
      [cbn [fst snd List.length]; repeat split; auto; try lia; try discriminate|].
    destruct rest' as [|w2 rest''];
      [cbn [fst snd List.length]; repeat split; auto; try lia; try discriminate|].
    destruct (str_eqb w2 (lit ":")) eqn:E1; cbn [orb].
    + apply str_eqb_eq in E1. subst w2.
      cbn [fst snd List.length nth_error]. repeat split; auto; lia.
    + destruct (str_eqb w2 (lit ",")) eqn:E2.
      * apply str_eqb_eq in E2. subst w2.
        cbn [fst snd List.length nth_error]. repeat split; auto; lia.
      * cbn [fst snd List.length]. repeat split; auto; try lia; try discriminate.
Qed.

Lemma paragraph_words p w0 rest :
  split (normalize_text (Paragraph.text p)) = w0 :: rest ->
  fst (process_paragraph p) = fst (fst (classify w0 rest))
  /\ skip_count p = snd (fst (classify w0 rest))
  /\ detected_punctuation p = snd (classify w0 rest).
Proof.
  intros E. unfold process_paragraph, skip_count, detected_punctuation.
  rewrite E. destruct (classify w0 rest) as [[fw skip] punct]. auto.
Qed.

(** X4: a paragraph whose text is empty or whitespace only has no word:
    [process_paragraph] returns the empty title and body and the paragraph
    gives no row.  Any other text passes the [if text:] test of
    [convert_single_file] and has a first word, so that test and the
    [not words] test of [process_paragraph] agree. *)
Theorem blank_paragraph :
  forall p,
    (forallb is_space (Paragraph.text p) = true ->
       process_paragraph p = ([], []) /\ emits p = false
       /\ normalize_text (Paragraph.text p) = [])
    /\ (forallb is_space (Paragraph.text p) = false ->
          truthy (normalize_text (Paragraph.text p)) = true
          /\ split (normalize_text (Paragraph.text p)) <> []).
Proof.
  intros p. split; intros H.
  - apply split_nil in H.
    assert (Hn : normalize_text (Paragraph.text p) = [])
      by (apply normalize_nil; exact H).
    unfold process_paragraph, emits. rewrite Hn. auto.
  - assert (Hs : split (Paragraph.text p) <> []).
    { intros E. apply split_nil in E. congruence. }
    split.
    + destruct (normalize_text (Paragraph.text p)) eqn:E; [|reflexivity].
      apply normalize_nil in E. contradiction.
    + rewrite split_normalize. exact Hs.
Qed.

Lemma blank_paragraph_witness :
  process_paragraph
    (Paragraph.Build_t (lit "   ") [Samples.run "   " true false])
  = ([], []).
Proof.
  exact (proj1 (proj1 (blank_paragraph
           (Paragraph.Build_t (lit "   ") [Samples.run "   " true false]))
           eq_refl)).
Defined.

(** X5: [process_paragraph] asks [process_runs] to skip one, two or three
    words and never more words than the paragraph text has; it skips two
    or more exactly when the second word is a Roman numeral; the
    punctuation it detects is nothing, ":" or ","; and when it skips three
    words the third word is that punctuation. *)
Theorem skip_count_bounds :
  forall p,
    forallb is_space (Paragraph.text p) = false ->
    1 <= skip_count p <= 3
    /\ skip_count p <= List.length (split (Paragraph.text p))
    /\ (2 <= skip_count p
        <-> numeral_follows (tl (split (Paragraph.text p))) = true)
    /\ (detected_punctuation p = None
        \/ detected_punctuation p = Some (lit ":")
        \/ detected_punctuation p = Some (lit ","))
    /\ (skip_count p = 3 ->
        nth_error (split (Paragraph.text p)) 2 = detected_punctuation p).
Proof.
  intros p H.
  destruct (split (Paragraph.text p)) as [|w0 rest] eqn:E.
  { apply split_nil in E. congruence. }
  assert (E' : split (normalize_text (Paragraph.text p)) = w0 :: rest)
    by (rewrite split_normalize; exact E).
  destruct (paragraph_words p w0 rest E') as [_ [-> ->]].
  cbn [tl List.length nth_error]. apply classify_bounds.
Qed.

Lemma skip_count_bounds_witness :
  1 <= skip_count Samples.section_two <= 3
  /\ skip_count Samples.section_two
     <= List.length (split (Paragraph.text Samples.section_two)).
Proof.
  pose proof (skip_count_bounds Samples.section_two eq_refl) as H.
  split; [exact (proj1 H) | exact (proj1 (proj2 H))].
Defined.

Lemma numeral_follows_token rest :
  Forall (fun w => spacefree w = true) rest ->
  numeral_follows rest = true ->
  In (clean_first_word (hd [] rest)) roman_tokens.
Proof.
  destruct rest as [|second rest']; [discriminate|].
  intros Hsf H. inversion Hsf as [|? ? Hs _]; subst. cbn [numeral_follows hd] in *.
  apply roman_stripped in H. rewrite clean_word in * by exact Hs.
  rewrite spacefree_strip in H by (apply spacefree_drop; exact Hs). exact H.
Qed.

(** X6: the title [process_paragraph] returns is a label without
    whitespace that ends with neither ":" nor ",", alone or followed by
    one space and one of the Roman-numeral tokens I..X; so the title
    itself ends with neither ":" nor ",". *)
Theorem title_shape :
  forall p,
    exists label,
      spacefree label = true
      /\ endswith label (lit ":") = false
      /\ endswith label (lit ",") = false
      /\ (fst (process_paragraph p) = label
          \/ exists t,
               In t roman_tokens
               /\ fst (process_paragraph p) = label ++ lit " " ++ t)
      /\ endswith (fst (process_paragraph p)) (lit ":") = false
      /\ endswith (fst (process_paragraph p)) (lit ",") = false.
Proof.
  intros p.
  pose proof (split_spacefree (normalize_text (Paragraph.text p))) as Hsf.
  destruct (split (normalize_text (Paragraph.text p))) as [|w0 rest] eqn:E.
  { exists []. unfold process_paragraph. rewrite E. cbn [fst].
    repeat split; try reflexivity. left. reflexivity. }
  destruct (paragraph_words p w0 rest E) as [-> _].
  inversion Hsf as [|? ? Hw0 Hrest]; subst.
  assert (Hu : spacefree (upper w0) = true) by (rewrite spacefree_upper; exact Hw0).
  exists (drop_trailing_punct (upper w0)).
  rewrite classify_title, (clean_word (upper w0) Hu).
  split; [apply spacefree_drop; exact Hu|].
  split; [apply drop_no_punct_end; reflexivity|].
  split; [apply drop_no_punct_end; reflexivity|].
  destruct (numeral_follows rest) eqn:Hn.
  - pose proof (numeral_follows_token rest Hrest Hn) as Hin.
    destruct (roman_token_facts _ Hin) as [_ [_ [_ [_ [_ Hend]]]]].
    split; [right; eexists; split; [exact Hin | reflexivity]|].
    rewrite !app_assoc. split; apply Hend; reflexivity.
  - split; [left; reflexivity|].
    split; apply drop_no_punct_end; reflexivity.
Qed.

(** X7: a paragraph gives a row exactly when its text has a first word
    and either that word is not made of [,] and [:] only, or the second
    word is a Roman numeral. *)
Theorem emits_iff :
  forall p,
    emits p = true
    <-> exists w0 rest,
          split (Paragraph.text p) = w0 :: rest
          /\ (all_punct w0 = false \/ numeral_follows rest = true).
Proof.
  intros p. unfold emits.
  pose proof (split_spacefree (Paragraph.text p)) as Hsf.
  destruct (split (Paragraph.text p)) as [|w0 rest] eqn:E.
  - assert (Hn : normalize_text (Paragraph.text p) = [])
      by (apply normalize_nil; exact E).
    rewrite Hn. cbn [truthy andb]. split; [discriminate|].
    intros [w [r [H _]]]. discriminate H.
  - assert (E' : split (normalize_text (Paragraph.text p)) = w0 :: rest)
      by (rewrite split_normalize; exact E).
    destruct (paragraph_words p w0 rest E') as [-> _].
    assert (Ht : truthy (normalize_text (Paragraph.text p)) = true).
    { destruct (normalize_text (Paragraph.text p)) eqn:En; [|reflexivity].
      apply normalize_nil in En. congruence. }
    rewrite Ht. cbn [andb].
    inversion Hsf as [|? ? Hw0 _]; subst.
    assert (Hu : spacefree (upper w0) = true) by (rewrite spacefree_upper; exact Hw0).
    rewrite classify_title, (clean_word (upper w0) Hu).
    destruct (numeral_follows rest) eqn:Hn.
    + split.
      * intros _. exists w0, rest. auto.
      * intros _. destruct (drop_trailing_punct (upper w0)); reflexivity.
    + split.
      * intros H. exists w0, rest. split; [reflexivity|]. left.
        destruct (all_punct w0) eqn:Hp; [|reflexivity].
        rewrite <- all_punct_upper in Hp. apply drop_nil in Hp.
        rewrite Hp in H. discriminate H.
      * intros [w [r [Hwr [Hp|Hr]]]]; injection Hwr as <- <-; [|congruence].
        destruct (drop_trailing_punct (upper w0)) eqn:Ed; [|reflexivity].
        apply drop_nil in Ed. rewrite all_punct_upper in Ed. congruence.
Qed.

End Labels.

(* ================================================================== *)
(** ** The shape of the body *)

Module BodyShape.
Import Py Re PyFacts ReFacts NormalizeFacts TextProcessor DocumentProcessor.

Section SqueezeShape.
Variables (P : ascii -> bool) (r : ascii).
Hypothesis P_r : P r = true.

Lemma squeeze_true_starts : forall s,
  match squeeze_from P r true s with
  | [] => True
  | x :: _ => P x = false
  end.
Proof.
  induction s as [|c s IH]; [exact I|].
  destruct (P c) eqn:Hc.
  - rewrite squeeze_from_in by exact Hc. exact IH.
  - rewrite squeeze_from_out by exact Hc. exact Hc.
Qed.

Lemma not_class_neq c : P c = false -> Ascii.eqb r c = false.
Proof.
  intros Hc. destruct (Ascii.eqb_spec r c) as [<-|]; congruence.
Qed.

Lemma squeeze_no_double : forall s b,
  contains [r; r] (squeeze_from P r b s) = false.
Proof.
  induction s as [|c s IH]; intros b; [reflexivity|].
  destruct (P c) eqn:Hc.
  - rewrite squeeze_from_in by exact Hc. destruct b; [apply IH|].
    cbn [contains startswith]. rewrite (IH true), orb_false_r.
    pose proof (squeeze_true_starts s) as Hh.
    destruct (squeeze_from P r true s) as [|x X].
    + apply andb_false_r.
    + rewrite (not_class_neq x Hh). apply andb_false_r.
  - rewrite squeeze_from_out by exact Hc.
    cbn [contains startswith]. rewrite (IH false), (not_class_neq c Hc).
    reflexivity.
Qed.

Lemma squeeze_class : forall s b c,
  In c (squeeze_from P r b s) -> P c = true -> c = r.
Proof.
  induction s as [|x s IH]; intros b c; [intros []|].
  destruct (P x) eqn:Hx.
  - rewrite squeeze_from_in by exact Hx. destruct b.
    + apply IH.
    + intros [<-|H] Hc; [reflexivity | apply (IH true c H Hc)].
  - rewrite squeeze_from_out by exact Hx.
    intros [<-|H] Hc; [congruence | apply (IH false c H Hc)].
Qed.
End SqueezeShape.

Lemma normalize_body_forms s :
  normalize_body s
  = sub_repeated ","%char (sub_repeated ":"%char (normalize_text s))
  /\ normalize_body s
     = sub_repeated ":"%char (sub_repeated ","%char (normalize_text s))
  /\ normalize_body s
     = normalize_text (sub_repeated ","%char (sub_repeated ":"%char s)).
Proof.
  assert (E : normalize_body s
              = sub_repeated ","%char (sub_repeated ":"%char (normalize_text s)))
    by reflexivity.
  split; [exact E|]. split.
  - rewrite E. symmetry. apply sub_repeated_comm. discriminate.
  - rewrite E, !normalize_text_sub_repeated by reflexivity. reflexivity.
Qed.

Lemma normalize_body_shape s :
  strip (normalize_body s) = normalize_body s
  /\ contains (lit "  ") (normalize_body s) = false
  /\ contains (lit "::") (normalize_body s) = false
  /\ contains (lit ",,") (normalize_body s) = false
  /\ (forall c, In c (normalize_body s) -> is_space c = true -> c = " "%char).
Proof.
  destruct (normalize_body_forms s) as [E1 [E2 E3]].
  split; [|split; [|split; [|split]]].
  - rewrite E3. unfold normalize_text. apply strip_idem.
  - rewrite E3. unfold normalize_text. rewrite strip_sub_spaces.
    apply (squeeze_no_double is_space " "%char). reflexivity.
  - rewrite E2, sub_repeated_squeeze.
    apply (squeeze_no_double (Ascii.eqb ":"%char) ":"%char). reflexivity.
  - rewrite E1, sub_repeated_squeeze.
    apply (squeeze_no_double (Ascii.eqb ","%char) ","%char). reflexivity.
  - rewrite E3. unfold normalize_text. rewrite strip_sub_spaces.
    intros c. apply (squeeze_class is_space " "%char).
Qed.

(** X8: the body [process_paragraph] returns has no whitespace at either
    end, no whitespace character other than the space, no two spaces in a
    row, and neither "::" nor ",,". *)
Theorem body_normal_form :
  forall p,
    strip (snd (process_paragraph p)) = snd (process_paragraph p)
    /\ contains (lit "  ") (snd (process_paragraph p)) = false
    /\ contains (lit "::") (snd (process_paragraph p)) = false
    /\ contains (lit ",,") (snd (process_paragraph p)) = false
    /\ (forall c, In c (snd (process_paragraph p)) ->
                  is_space c = true -> c = " "%char).
Proof.
  intros p. unfold process_paragraph.
  destruct (split (normalize_text (Paragraph.text p))) as [|w0 rest].
  - cbn [snd]. repeat split. intros c [].
  - destruct (classify w0 rest) as [[fw skip] punct]. cbn [snd].
    unfold post_process. apply normalize_body_shape.
Qed.

End BodyShape.

(* ================================================================== *)
(** ** process_runs groups the runs by style *)

Module RunGroups.
Import Py PyFacts WordFacts FormatProcessor DocumentProcessor Specs Vocabulary.
Import RunFormatter.

Lemma format_differs_eq f g : format_differs f g = false -> f = g.
Proof. destruct f as [[]|], g as [[]|]; simpl; congruence. Qed.

Lemma format_differs_sym f g : format_differs f g = format_differs g f.
Proof. destruct f as [[]|], g as [[]|]; reflexivity. Qed.

Lemma merge_cons f t l :
  merge ((f, t) :: l)
  = match merge l with
    | (g, u) :: m =>
        if format_differs f g then (f, t) :: (g, u) :: m else (f, t ++ u) :: m
    | [] => [(f, t)]
    end.
Proof. reflexivity. Qed.

Lemma merge_head f t l : exists u m, merge ((f, t) :: l) = (f, u) :: m.
Proof.
  rewrite merge_cons. destruct (merge l) as [|[g u] m]; [eauto|].
  destruct (format_differs f g); eauto.
Qed.

Lemma merge_same f a b l :
  merge ((f, a) :: (f, b) :: l) = merge ((f, a ++ b) :: l).
Proof.
  rewrite (merge_cons f a), (merge_cons f b), (merge_cons f (a ++ b)).
  destruct (merge l) as [|[g u] m].
  - rewrite format_differs_same. reflexivity.
  - destruct (format_differs f g); rewrite format_differs_same;
      [reflexivity | rewrite app_assoc; reflexivity].
Qed.

Lemma merge_diff f a g b l :
  format_differs f g = true ->
  merge ((f, a) :: (g, b) :: l) = (f, a) :: merge ((g, b) :: l).
Proof.
  intros H. rewrite (merge_cons f a).
  destruct (merge_head g b l) as [u [m E]]. rewrite E, H. reflexivity.
Qed.

Lemma merge_alternating : forall l, alternating (merge l) = true.
Proof.
  induction l as [|[f t] l IH]; [reflexivity|].
  rewrite merge_cons. destruct (merge l) as [|[g u] m]; [reflexivity|].
  destruct (format_differs f g) eqn:E.
  - cbn [alternating fst]. rewrite E. exact IH.
  - apply format_differs_eq in E. subst g.
    destruct m; [reflexivity | exact IH].
Qed.

Lemma merge_text : forall l, concat (map snd (merge l)) = concat (map snd l).
Proof.
  induction l as [|[f t] l IH]; [reflexivity|].
  rewrite merge_cons. cbn [map snd concat]. rewrite <- IH.
  destruct (merge l) as [|[g u] m]; [reflexivity|].
  destruct (format_differs f g); cbn [map snd concat];
    rewrite ?app_assoc; reflexivity.
Qed.

Lemma append_run_format f t st : current_format (append_run f t st) = f.
Proof.
  unfold append_run. destruct (format_differs f (current_format st)) eqn:E;
    [reflexivity|]. apply format_differs_eq in E. symmetry. exact E.
Qed.

Lemma concat_one (t : str) : concat [t] = t.
Proof. apply app_nil_r. Qed.

(** Once some text is pending. *)
Lemma loop_grouped : forall rest skip st,
  skip <= words_processed st ->
  truthy (current_text st) = true ->
  concat (flush (run_loop skip rest st))
  = concat (formatted_text st)
    ++ concat (map render
         (merge ((current_format st, concat (current_text st))
                   :: pieces (Some (current_format st)) rest))).
Proof.
  induction rest as [|r rest IH]; intros skip st Hwp Ht.
  - cbn [run_loop fold_left pieces]. unfold flush. rewrite Ht, concat_app.
    reflexivity.
  - change (run_loop skip (r :: rest) st) with (run_loop skip rest (step skip st r)).
    cbn [pieces]. destruct (blank r) eqn:Hb.
    + rewrite step_blank by exact Hb. rewrite Ht. cbn [andb].
      destruct (isspace (Run.text r)) eqn:Hs; [|apply IH; assumption].
      rewrite IH by (cbn [push_text words_processed current_text];
                     first [exact Hwp | apply truthy_app]).
      cbn [push_text formatted_text current_format current_text].
      rewrite merge_same, concat_app, concat_one. reflexivity.
    + rewrite step_exhausted by assumption. unfold append_run.
      destruct (format_differs (get_run_formatting r) (current_format st)) eqn:E.
      * rewrite IH by (cbn [words_processed current_text truthy]; auto).
        cbn [formatted_text current_format current_text].
        rewrite merge_diff by (rewrite format_differs_sym; exact E).
        unfold flush. rewrite Ht, concat_app, !concat_one.
        cbn [map concat]. unfold render at 2. cbn [fst snd].
        rewrite <- app_assoc. reflexivity.
      * apply format_differs_eq in E.
        rewrite IH by (cbn [words_processed current_text];
                       first [exact Hwp | apply truthy_app]).
        cbn [formatted_text current_format current_text].
        rewrite E, merge_same, concat_app, concat_one. reflexivity.
Qed.

(** While nothing is pending. *)
Lemma loop_grouped_init : forall rest skip st,
  skip <= words_processed st ->
  current_text st = [] -> formatted_text st = [] ->
  concat (flush (run_loop skip rest st))
  = concat (map render (merge (pieces None rest))).
Proof.
  induction rest as [|r rest IH]; intros skip st Hwp Hct Hft.
  - cbn [run_loop fold_left pieces merge map concat]. unfold flush.
    rewrite Hct, Hft. reflexivity.
  - change (run_loop skip (r :: rest) st) with (run_loop skip rest (step skip st r)).
    cbn [pieces]. destruct (blank r) eqn:Hb.
    + rewrite step_blank by exact Hb. rewrite Hct. cbn [truthy andb].
      apply IH; assumption.
    + rewrite step_exhausted by assumption.
      destruct (append_run_fresh (get_run_formatting r) (Run.text r) st Hft Hct)
        as [A1 A2].
      rewrite loop_grouped
        by (rewrite ?append_run_words, ?A2; first [exact Hwp | reflexivity]).
      rewrite A1, A2, append_run_format, concat_one. reflexivity.
Qed.

Lemma pieces_text : forall runs f,
  concat (map snd (pieces (Some f) runs)) = concat (map Run.text runs).
Proof.
  induction runs as [|r runs IH]; intros f; [reflexivity|].
  cbn [pieces map concat]. destruct (blank r) eqn:Hb.
  - destruct (isspace (Run.text r)) eqn:Hs.
    + cbn [map snd concat]. rewrite IH. reflexivity.
    + assert (Hr : Run.text r = []).
      { apply blank_not_isspace; [|exact Hs]. unfold blank in Hb.
        destruct (strip (Run.text r)); [reflexivity | discriminate Hb]. }
      rewrite Hr, IH. reflexivity.
  - cbn [map snd concat]. rewrite IH. reflexivity.
Qed.

Lemma pieces_text_init : forall runs,
  concat (map snd (pieces None runs)) = concat (map Run.text (drop_blank runs)).
Proof.
  induction runs as [|r runs IH]; [reflexivity|].
  cbn [pieces drop_blank]. destruct (blank r); [exact IH|].
  cbn [map snd concat]. rewrite pieces_text. reflexivity.
Qed.

(** X9: with nothing to skip, [process_runs] returns the markup of the
    kept runs grouped by style: blank runs in front are dropped, a run of
    whitespace joins the group before it, adjacent runs of one style form
    one group, and each group is wrapped in one span unless it is
    unstyled.  Consecutive groups differ in style, and the groups hold the
    kept texts unchanged. *)
Theorem process_runs_groups :
  forall t runs,
    process_runs (Paragraph.Build_t t runs) 0
    = concat (map render (merge (pieces None runs)))
    /\ alternating (merge (pieces None runs)) = true
    /\ concat (map snd (merge (pieces None runs)))
       = concat (map Run.text (drop_blank runs)).
Proof.
  intros t runs. split; [|split].
  - unfold process_runs. cbn [Paragraph.runs].
    apply loop_grouped_init; [cbn; lia | reflexivity | reflexivity].
  - apply merge_alternating.
  - rewrite merge_text. apply pieces_text_init.
Qed.

(** X10: when the skipped words end exactly with a run, the runs before
    are consumed whole and the result is that of the remaining runs with
    nothing to skip. *)
Theorem process_runs_skips_prefix :
  forall t t' pre post skip,
    word_count pre = skip ->
    process_runs (Paragraph.Build_t t (pre ++ post)) skip
    = process_runs (Paragraph.Build_t t' post) 0.
Proof.
  intros t t' pre post skip H. unfold process_runs. cbn [Paragraph.runs].
  rewrite run_loop_app, prefix_skipped by lia. f_equal.
  apply flush_core. apply loop_exhausted_core; [cbn; lia | cbn; lia | reflexivity].
Qed.

Lemma process_runs_skips_prefix_witness :
  process_runs Samples.section_two 2
  = process_runs
      (Paragraph.Build_t []
         [Samples.run "Hello " true false; Samples.run "world" false false]) 0.
Proof.
  exact (process_runs_skips_prefix (lit "Section II: Hello world") []
           [Samples.run "Section II: " false false]
           [Samples.run "Hello " true false; Samples.run "world" false false]
           2 eq_refl).
Defined.

Lemma plain_pieces : forall runs cur,
  Forall (fun r => get_run_formatting r = None) runs ->
  (cur = None \/ cur = Some None) ->
  Forall (fun seg => fst seg = None) (pieces cur runs).
Proof.
  induction runs as [|r runs IH]; intros cur Hp Hc; [constructor|].
  inversion Hp as [|? ? Hr Hrs]; subst. cbn [pieces].
  destruct (blank r).
  - destruct Hc as [->| ->]; [apply IH; auto|].
    destruct (isspace (Run.text r)); [constructor; [reflexivity|]|]; apply IH; auto.
  - constructor; [exact Hr|]. rewrite Hr. apply IH; auto.
Qed.

Lemma plain_render : forall l,
  Forall (fun seg => fst seg = None) l ->
  concat (map render (merge l)) = concat (map snd l).
Proof.
  intros l H. rewrite <- merge_text.
  assert (Hm : Forall (fun seg => fst seg = None) (merge l)).
  { induction H as [|[f t] l Hf _ IH]; [constructor|].
    rewrite merge_cons. cbn [fst] in Hf. subst f.
    destruct (merge l) as [|[g u] m]; [repeat constructor|].
    inversion IH as [|? ? Hg Hm]; subst. cbn [fst] in Hg. subst g.
    cbn [format_differs]. constructor; [reflexivity | exact Hm]. }
  induction Hm as [|[f t] m Hf _ IH]; [reflexivity|].
  cbn [fst] in Hf. subst f. cbn [map concat]. rewrite IH. reflexivity.
Qed.

(** X11: a paragraph none of whose runs is bold or italic is returned
    without markup: with nothing to skip, the result is the texts of the
    runs from the first non-blank one on, one after the other. *)
Theorem process_runs_plain :
  forall t runs,
    Forall (fun r => get_run_formatting r = None) runs ->
    process_runs (Paragraph.Build_t t runs) 0
    = concat (map Run.text (drop_blank runs)).
Proof.
  intros t runs H. unfold process_runs. cbn [Paragraph.runs].
  rewrite loop_grouped_init by (cbn; lia || reflexivity).
  rewrite plain_render by (apply plain_pieces; auto).
  apply pieces_text_init.
Qed.

Lemma process_runs_plain_witness :
  process_runs
    (Paragraph.Build_t []
       [Samples.run " " false false; Samples.run "a  b " false false;
        Samples.run "" false false; Samples.run "  " false false;
        Samples.run "c" false false]) 0
  = lit "a  b   c".
Proof.
  apply (process_runs_plain []
           [Samples.run " " false false; Samples.run "a  b " false false;
            Samples.run "" false false; Samples.run "  " false false;
            Samples.run "c" false false]).
  repeat constructor.
Defined.

End RunGroups.

(* ================================================================== *)
(** ** The passes over the raw body (lines 135-145) *)

Module PostPasses.
Import Py Re PyFacts TextProcessor FormatProcessor DocumentProcessor.
Import Specs Vocabulary Sanitizer.

(** *** Line 136 *)

Lemma index_of_cons c x s :
  index_of c (x :: s)
  = if (x =? c)%char then Some 0 else option_map S (index_of c s).
Proof. reflexivity. Qed.

Lemma sub_tags_from_no_gt : forall s k,
  index_of ">"%char s = None ->
  index_of ">"%char (sub_tags_from k s) = None.
Proof.
  induction s as [|c s IH]; intros k H; [reflexivity|].
  rewrite index_of_cons in H.
  destruct (c =? ">")%char eqn:Hc; [discriminate H|].
  destruct (index_of ">"%char s) eqn:Hi; [discriminate H|].
  cbn [sub_tags_from]. destruct k as [|k]; [|apply IH; reflexivity].
  destruct (tag_match (c :: s)); [apply IH; reflexivity|].
  rewrite index_of_cons, Hc, IH by reflexivity. reflexivity.
Qed.

Lemma startswith_split : forall p s,
  startswith p s = true -> exists rest, s = p ++ rest.
Proof.
  induction p as [|a p IH]; intros s H; [exists s; reflexivity|].
  destruct s as [|b s]; [discriminate H|].
  cbn [startswith] in H. apply andb_true_iff in H as [Hab H].
  apply Ascii.eqb_eq in Hab. subst b.
  destruct (IH s H) as [rest ->]. exists rest. reflexivity.
Qed.

Lemma startswith_self : forall p rest, startswith p (p ++ rest) = true.
Proof.
  induction p as [|a p IH]; intros rest; [reflexivity|].
  cbn [app startswith]. rewrite Ascii.eqb_refl. apply IH.
Qed.

Lemma sub_tags_keeps_prefix p s :
  span_only p = true ->
  startswith p s = true -> startswith p (sub_tags s) = true.
Proof.
  intros Hp H. destruct (startswith_split p s H) as [rest ->].
  rewrite sub_tags_prefix by exact Hp. apply startswith_self.
Qed.

Lemma tag_match_kept_after c s :
  tag_match (c :: s) = None -> tag_match (c :: sub_tags s) = None.
Proof.
  unfold tag_match. destruct (c =? "<")%char; [|reflexivity].
  destruct (startswith (lit "span") s) eqn:H1.
  { rewrite (sub_tags_keeps_prefix (lit "span") s eq_refl H1). reflexivity. }
  destruct (startswith (lit "/span") s) eqn:H2.
  { rewrite (sub_tags_keeps_prefix (lit "/span") s eq_refl H2), !orb_true_r.
    reflexivity. }
  cbn [orb]. intros H.
  assert (Hi : index_of ">"%char (sub_tags s) = None
               \/ index_of ">"%char (sub_tags s) = Some 0).
  { destruct (index_of ">"%char s) as [[|n]|] eqn:Hi.
    - right. destruct s as [|x s]; [discriminate Hi|].
      rewrite index_of_cons in Hi.
      destruct (x =? ">")%char eqn:Hx;
        [|destruct (index_of ">"%char s); discriminate Hi].
      apply Ascii.eqb_eq in Hx. subst x. reflexivity.
    - discriminate H.
    - left. apply sub_tags_from_no_gt. exact Hi. }
  destruct (startswith (lit "span") (sub_tags s)
            || startswith (lit "/span") (sub_tags s)); [reflexivity|].
  destruct Hi as [-> | ->]; reflexivity.
Qed.

Lemma sub_tags_from_free : forall s k, tag_free (sub_tags_from k s) = true.
Proof.
  induction s as [|c s IH]; intros k; [reflexivity|].
  cbn [sub_tags_from]. destruct k as [|k]; [|apply IH].
  destruct (tag_match (c :: s)) eqn:Hm; [apply IH|].
  cbn [tag_free]. fold (sub_tags s).
  rewrite (tag_match_kept_after c s Hm). apply IH.
Qed.

Lemma tag_free_fixed : forall s, tag_free s = true -> sub_tags s = s.
Proof.
  unfold sub_tags. induction s as [|c s IH]; [reflexivity|].
  cbn [tag_free sub_tags_from].
  destruct (tag_match (c :: s)); [discriminate|].
  intros H. rewrite IH by exact H. reflexivity.
Qed.

(** X12: after the sanitization no position of the body starts a match
    of [<(?!/?span)[^>]+>] any more, so sanitizing twice gives the same as
    sanitizing once. *)
Theorem sanitize_idempotent :
  forall body,
    tag_free (sanitize body) = true
    /\ sanitize (sanitize body) = sanitize body.
Proof.
  intros body. unfold sanitize.
  assert (H : tag_free (sub_tags body) = true) by apply sub_tags_from_free.
  split; [exact H | apply tag_free_fixed; exact H].
Qed.

(** *** Line 135 *)

Lemma first_roman_none : forall tokens s,
  (forall t, In t tokens -> startswith t s = false) ->
  first_roman tokens s = None.
Proof.
  induction tokens as [|t ts IH]; intros s H; [reflexivity|].
  cbn [first_roman]. rewrite (H t (or_introl eq_refl)). cbn [andb].
  apply IH. intros t' Ht'. apply H. right. exact Ht'.
Qed.

Lemma roman_match_other c s :
  numeral_letter c = false -> roman_match (c :: s) = None.
Proof.
  intros Hc. unfold roman_match. rewrite first_roman_none; [reflexivity|].
  unfold numeral_letter in Hc.
  apply orb_false_iff in Hc as [Hc HX]. apply orb_false_iff in Hc as [HI HV].
  intros t Ht.
  repeat (destruct Ht as [<-|Ht];
          [cbn [lit list_ascii_of_string startswith];
           rewrite ?HI, ?HV, ?HX; reflexivity|]).
  destruct Ht.
Qed.

Lemma sub_roman_fixed : forall s b,
  forallb (fun c => negb (numeral_letter c)) s = true ->
  sub_roman_from b 0 s = s.
Proof.
  induction s as [|c s IH]; intros b H; [reflexivity|].
  cbn [forallb] in H. apply andb_true_iff in H as [Hc H].
  apply negb_true_iff in Hc.
  cbn [sub_roman_from]. rewrite (roman_match_other c s Hc).
  destruct b; rewrite IH by exact H; reflexivity.
Qed.

(** X13: a text without a capital I, V or X passes the Roman-numeral
    deletion of line 135 unchanged. *)
Theorem sub_roman_without_numerals :
  forall s,
    forallb (fun c => negb (numeral_letter c)) s = true ->
    sub_roman s = s.
Proof. intros s H. apply sub_roman_fixed. exact H. Qed.

Lemma sub_roman_without_numerals_witness :
  sub_roman (lit "this is the body") = lit "this is the body".
Proof.
  exact (sub_roman_without_numerals (lit "this is the body") eq_refl).
Defined.

(** *** Lines 138-145 *)







(** *** A paragraph that is all title *)

(** X15: when the runs of a paragraph hold no more words than the title
    takes, the body is the detected punctuation mark, or empty when none
    was detected. *)
Theorem title_only_paragraph :
  forall p,
    forallb is_space (Paragraph.text p) = false ->
    word_count (Paragraph.runs p) <= skip_count p ->
    snd (process_paragraph p)
    = match detected_punctuation p with
      | Some mark => mark
      | None => []
      end.
Proof.
  intros p Hnb Hwc.
  destruct (split (normalize_text (Paragraph.text p))) as [|w0 rest] eqn:E.
  { rewrite NormalizeText.split_normalize in E.
    apply WordFacts.split_nil in E. congruence. }
  destruct (Labels.paragraph_words p w0 rest E) as [_ [Hs Hd]].
  pose proof (Labels.classify_bounds w0 rest) as [_ [_ [_ [Hp _]]]].
  revert Hwc Hp. rewrite Hs, Hd. unfold process_paragraph. rewrite E.
  destruct (classify w0 rest) as [[fw skip] punct]. cbn [fst snd].
  intros Hwc Hp.
  assert (Hraw : process_runs p skip = []).
  { unfold process_runs. rewrite RunFormatter.prefix_skipped by exact Hwc.
    reflexivity. }
  rewrite Hraw.
  destruct Hp as [-> | [-> | ->]]; reflexivity.
Qed.

Lemma title_only_paragraph_witness :
  snd (process_paragraph (Samples.plain "Contents:")) = lit ":".
Proof.
  exact (title_only_paragraph (Samples.plain "Contents:") eq_refl (le_n 1)).
Defined.

End PostPasses.

(* ================================================================== *)
(** ** The rows of a sheet and the reports of the batch *)

Module Sheets.
Import Py TextProcessor DocumentProcessor BatchConverter Worksheet.
Import Specs Vocabulary Batch.

Lemma sheet_of_headers cat : sheet_of cat (write_headers 1 headers empty_sheet) [].
Proof.
  split; [|split].
  - intros i para H. destruct i; discriminate H.
  - intros c. do 5 (destruct c as [|c]; [reflexivity|]). destruct c; reflexivity.
  - intros r c H. unfold headers. cbn [map write_headers List.length] in *.
    destruct H as [->|[H|[->|H]]].
    + reflexivity.
    + rewrite !cell_other_row by lia. reflexivity.
    + rewrite !cell_other_col by lia. reflexivity.
    + rewrite !cell_other_col by lia. reflexivity.
Qed.

Lemma sheet_of_next cat ws emitted para :
  sheet_of cat ws emitted ->
  sheet_of cat
    (cell (2 + List.length emitted) 4
       (CStr (lit "<p>" ++ snd (process_paragraph para) ++ lit "</p>"))
       (cell (2 + List.length emitted) 3 (CStr (fst (process_paragraph para)))
          (cell (2 + List.length emitted) 2 (CStr cat)
             (cell (2 + List.length emitted) 1
                (CInt (1 + List.length emitted)) ws))))
    (emitted ++ [para]).
Proof.
  intros [Hrows [Hhead Hfree]]. split; [|split].
  - intros i q Hi.
    assert (Hlt : i < List.length (emitted ++ [para]))
      by (apply nth_error_Some; congruence).
    rewrite length_app in Hlt. cbn [List.length] in Hlt.
    destruct (Nat.eq_dec i (List.length emitted)) as [->|Hne].
    + rewrite nth_error_app2, Nat.sub_diag in Hi by lia.
      injection Hi as <-. unfold row_holds. repeat split.
      * rewrite !cell_other_col by lia. apply cell_same.
      * rewrite !cell_other_col by lia. apply cell_same.
      * rewrite cell_other_col by lia. apply cell_same.
      * apply cell_same.
    + rewrite nth_error_app1 in Hi by lia.
      destruct (Hrows i q Hi) as [H1 [H2 [H3 H4]]].
      unfold row_holds. rewrite !cell_other_row by lia. auto.
  - intros c. rewrite !cell_other_row by lia. apply Hhead.
  - intros r c H. rewrite length_app in H. cbn [List.length] in H.
    destruct H as [->|[H|[->|H]]].
    + rewrite !cell_other_row by lia. apply Hfree. auto.
    + rewrite !cell_other_row by lia. apply Hfree. right. left. lia.
    + rewrite !cell_other_col by lia. apply Hfree. auto.
    + rewrite !cell_other_col by lia. apply Hfree. auto.
Qed.

Lemma rows_loop : forall paragraphs cat ws emitted,
  sheet_of cat ws emitted ->
  sheet_of cat
    (fst (fst (fold_left (para_step cat) paragraphs
                 (ws, 2 + List.length emitted, 1 + List.length emitted))))
    (emitted ++ filter emits paragraphs).
Proof.
  induction paragraphs as [|para rest IH]; intros cat ws emitted H.
  - cbn [fold_left filter fst]. rewrite app_nil_r. exact H.
  - cbn [fold_left filter]. destruct (emits para) eqn:He.
    + destruct (para_step_emits cat ws (2 + List.length emitted)
                  (1 + List.length emitted) para He)
        as [title [content [Hpp Hstep]]].
      rewrite Hstep.
      pose proof (sheet_of_next cat ws emitted para H) as Hnext.
      rewrite Hpp in Hnext. cbn [fst snd] in Hnext.
      specialize (IH cat _ _ Hnext).
      rewrite length_app in IH. cbn [List.length] in IH.
      replace (2 + (List.length emitted + 1)) with (2 + List.length emitted + 1)
        in IH by lia.
      replace (1 + (List.length emitted + 1)) with (1 + List.length emitted + 1)
        in IH by lia.
      rewrite <- app_assoc in IH. exact IH.
    + rewrite para_step_skips by exact He. apply IH. exact H.
Qed.

Lemma fill_sheet_rows cat paragraphs :
  sheet_of cat (fst (fst (fill_sheet cat paragraphs))) (filter emits paragraphs).
Proof.
  unfold fill_sheet.
  apply (rows_loop paragraphs cat _ [] (sheet_of_headers cat)).
Qed.

Lemma check_string_storable s : storable s = true -> check_string s = Returned s.
Proof.
  unfold storable, check_string. generalize max_string_length. intros m H.
  apply andb_true_iff in H as [Hlen Hill].
  apply Nat.leb_le in Hlen. apply negb_true_iff in Hill.
  rewrite firstn_all2 by exact Hlen. rewrite Hill. reflexivity.
Qed.

Lemma check_string_unchanged s : check_string s = Returned s -> storable s = true.
Proof.
  unfold storable, check_string. generalize max_string_length. intros m.
  destruct (existsb illegal_character (firstn m s)) eqn:Hill; [discriminate|].
  intros H. injection H as H. rewrite H in Hill. rewrite Hill.
  apply (f_equal (@List.length ascii)) in H.
  rewrite length_firstn in H.
  apply andb_true_iff. split; [apply Nat.leb_le; lia | reflexivity].
Qed.

Lemma checked_cell_storable row col s ws :
  storable s = true ->
  checked_cell row col (CStr s) ws = Returned (cell row col (CStr s) ws).
Proof.
  intros H. unfold checked_cell. rewrite (check_string_storable s H). reflexivity.
Qed.

Lemma checked_headers_written :
  checked_headers 1 headers empty_sheet
  = Returned (write_headers 1 headers empty_sheet).
Proof.
  unfold headers. cbn [map checked_headers write_headers].
  rewrite checked_cell_storable by (vm_compute; reflexivity). cbn [bind].
  rewrite checked_cell_storable by (vm_compute; reflexivity). cbn [bind].
  rewrite checked_cell_storable by (vm_compute; reflexivity). cbn [bind].
  rewrite checked_cell_storable by (vm_compute; reflexivity). reflexivity.
Qed.

Lemma checked_para_step_written cat st para :
  storable cat = true ->
  (emits para = true ->
   storable (fst (process_paragraph para)) = true
   /\ storable (lit "<p>" ++ snd (process_paragraph para) ++ lit "</p>") = true) ->
  checked_para_step cat st para = Returned (para_step cat st para).
Proof.
  intros Hcat H. unfold emits in H. unfold checked_para_step, para_step.
  destruct st as [[ws row] article_id].
  destruct (truthy (normalize_text (Paragraph.text para))); [|reflexivity].
  destruct (process_paragraph para) as [title content].
  cbn [fst snd andb] in H.
  destruct (truthy title); [|reflexivity].
  destruct (H eq_refl) as [Ht Hc].
  cbn [checked_cell bind].
  rewrite (check_string_storable cat Hcat). cbn [bind].
  rewrite (check_string_storable title Ht). cbn [bind].
  rewrite (check_string_storable _ Hc). reflexivity.
Qed.

Lemma checked_loop_written cat : forall paragraphs st,
  storable cat = true ->
  (forall para, In para paragraphs -> emits para = true ->
     storable (fst (process_paragraph para)) = true
     /\ storable (lit "<p>" ++ snd (process_paragraph para) ++ lit "</p>") = true) ->
  checked_loop cat paragraphs st
  = Returned (fold_left (para_step cat) paragraphs st).
Proof.
  induction paragraphs as [|para rest IH]; intros st Hcat H; [reflexivity|].
  cbn [checked_loop fold_left].
  rewrite (checked_para_step_written cat st para Hcat (H para (or_introl eq_refl))).
  cbn [bind]. apply IH; [exact Hcat|].
  intros q Hq. apply H. right. exact Hq.
Qed.

(** X16: a cell of openpyxl stores a string as it is exactly when the
    string has at most 32767 characters and no control character that the
    library refuses; otherwise the string is cut or the write raises.
    When the category and, for every paragraph that gives a row, the title
    and the body wrapped in a [p] element are such strings, no write
    raises and the sheet of the document holds the four headers in row 1
    and, for the i-th paragraph that gives a row (in document order), the
    number i, the category, the title and the wrapped body in data row i;
    every other cell is empty. *)
Theorem sheet_rows :
  forall cat paragraphs,
    storable cat = true ->
    (forall para, In para paragraphs -> emits para = true ->
       storable (fst (process_paragraph para)) = true
       /\ storable (lit "<p>" ++ snd (process_paragraph para) ++ lit "</p>") = true) ->
    checked_fill_sheet cat paragraphs = Returned (fill_sheet cat paragraphs)
    /\ sheet_of cat (fst (fst (fill_sheet cat paragraphs)))
         (filter emits paragraphs)
    /\ (forall row col s ws,
          checked_cell row col (CStr s) ws = Returned (cell row col (CStr s) ws)
          <-> storable s = true).
Proof.
  intros cat paragraphs Hcat H. split; [|split].
  - unfold checked_fill_sheet, fill_sheet.
    rewrite checked_headers_written. cbn [bind].
    apply checked_loop_written; assumption.
  - apply fill_sheet_rows.
  - intros row col s ws. split; [|apply checked_cell_storable].
    unfold checked_cell. destruct (check_string s) as [s'|e] eqn:E;
      cbn [bind]; [|discriminate].
    intros Heq. injection Heq as Heq.
    apply (f_equal (fun f => f row col)) in Heq. rewrite !cell_same in Heq.
    injection Heq as ->. apply check_string_unchanged. exact E.
Qed.

Lemma sheet_rows_witness :
  checked_fill_sheet (lit "A") [Samples.section_two; Samples.overview]
  = Returned (fill_sheet (lit "A") [Samples.section_two; Samples.overview]).
Proof.
  apply (sheet_rows (lit "A") [Samples.section_two; Samples.overview]).
  - vm_compute. reflexivity.
  - intros para [<-|[<-|[]]] _; split; vm_compute; reflexivity.
Defined.

End Sheets.

(* ================================================================== *)
(** ** A paragraph of one unstyled run *)

Module PlainParagraph.
Import Py Re PyFacts WordFacts TextProcessor FormatProcessor DocumentProcessor.
Import Specs Vocabulary NormalizeText Labels.

Lemma in_split : forall s w c, In w (split s) -> In c w -> In c s.
Proof.
  induction s as [|c0 s IH]; intros w c Hw Hc; [destruct Hw|].
  cbn [split] in Hw. destruct (is_space c0).
  { right. apply (IH w c Hw Hc). }
  destruct s as [|c' s].
  { destruct Hw as [<-|[]]. exact Hc. }
  destruct (is_space c').
  { destruct Hw as [<-|Hw]; [destruct Hc as [<-|[]]; left; reflexivity|].
    right. apply (IH w c Hw Hc). }
  destruct (split (c' :: s)) as [|w1 ws] eqn:E.
  { destruct Hw as [<-|[]]. destruct Hc as [<-|[]]. left. reflexivity. }
  destruct Hw as [<-|Hw].
  - destruct Hc as [<-|Hc]; [left; reflexivity|].
    right. apply (IH w1 c (or_introl eq_refl) Hc).
  - right. apply (IH w c (or_intror Hw) Hc).
Qed.

Lemma in_join : forall sep ws c,
  In c (join sep ws) -> In c sep \/ exists w, In w ws /\ In c w.
Proof.
  intros sep. induction ws as [|w ws IH]; intros c H; [destruct H|].
  destruct ws as [|w' ws].
  - right. exists w. split; [left; reflexivity | exact H].
  - change (join sep (w :: w' :: ws)) with (w ++ sep ++ join sep (w' :: ws)) in H.
    apply in_app_or in H as [H|H].
    + right. exists w. split; [left; reflexivity | exact H].
    + apply in_app_or in H as [H|H]; [left; exact H|].
      destruct (IH c H) as [Hs|[x [Hx Hc]]]; [left; exact Hs|].
      right. exists x. split; [right; exact Hx | exact Hc].
Qed.

(** A property of the characters of a text holds for its words joined by
    spaces, when it holds for the space. *)
Lemma forallb_join_words P s ws :
  P " "%char = true ->
  forallb P s = true ->
  (forall w, In w ws -> In w (split s)) ->
  forallb P (join (lit " ") ws) = true.
Proof.
  intros Hsp Hs Hws. apply forallb_forall. intros c Hc.
  rewrite forallb_forall in Hs.
  apply in_join in Hc as [Hc|[w [Hw Hc]]].
  - destruct Hc as [<-|[]]. exact Hsp.
  - apply Hs. apply (in_split s w c); [apply Hws; exact Hw | exact Hc].
Qed.

Lemma split_word_then_space : forall w R,
  w <> [] -> spacefree w = true ->
  split (w ++ " "%char :: R) = w :: split R.
Proof.
  induction w as [|c w IH]; intros R Hne Hsf; [congruence|].
  unfold spacefree in Hsf. cbn [forallb] in Hsf.
  apply andb_true_iff in Hsf as [Hc Hw]. apply negb_true_iff in Hc.
  destruct w as [|c' w].
  - cbn [app split]. rewrite Hc. reflexivity.
  - assert (Hc' : is_space c' = false).
    { cbn [forallb] in Hw. apply andb_true_iff in Hw as [H _].
      apply negb_true_iff in H. exact H. }
    specialize (IH R ltac:(discriminate) Hw).
    change ((c :: c' :: w) ++ " "%char :: R)
      with (c :: c' :: (w ++ " "%char :: R)).
    change ((c' :: w) ++ " "%char :: R) with (c' :: (w ++ " "%char :: R)) in IH.
    cbn [split] in *. rewrite Hc, Hc' in *. rewrite IH. reflexivity.
Qed.

Lemma split_one_word : forall w,
  w <> [] -> spacefree w = true -> split w = [w].
Proof.
  induction w as [|c w IH]; intros Hne Hsf; [congruence|].
  unfold spacefree in Hsf. cbn [forallb] in Hsf.
  apply andb_true_iff in Hsf as [Hc Hw]. apply negb_true_iff in Hc.
  destruct w as [|c' w]; [cbn [split]; rewrite Hc; reflexivity|].
  assert (Hc' : is_space c' = false).
  { cbn [forallb] in Hw. apply andb_true_iff in Hw as [H _].
    apply negb_true_iff in H. exact H. }
  specialize (IH ltac:(discriminate) Hw).
  cbn [split] in *. rewrite Hc, Hc' in *. rewrite IH. reflexivity.
Qed.

Lemma split_join : forall ws,
  Forall (fun w => w <> [] /\ spacefree w = true) ws ->
  split (join (lit " ") ws) = ws.
Proof.
  induction ws as [|w ws IH]; intros H; [reflexivity|].
  inversion H as [|? ? [Hne Hsf] Hws]; subst.
  destruct ws as [|w' ws]; [apply split_one_word; assumption|].
  change (join (lit " ") (w :: w' :: ws))
    with (w ++ " "%char :: join (lit " ") (w' :: ws)).
  rewrite split_word_then_space by assumption.
  rewrite IH by exact Hws. reflexivity.
Qed.

Lemma split_words_shape s :
  Forall (fun w => w <> [] /\ spacefree w = true) (split s).
Proof.
  pose proof (split_wordlike s) as H1. pose proof (split_spacefree s) as H2.
  induction H1 as [|w ws Hw _ IH]; [constructor|].
  inversion H2; subst. constructor; [|apply IH; assumption].
  split; [|assumption]. destruct w; [destruct Hw | discriminate].
Qed.

Lemma no_lt_span_only : forall s,
  forallb (fun c => negb (c =? "<")%char) s = true -> span_only s = true.
Proof.
  induction s as [|c s IH]; [reflexivity|].
  cbn [forallb span_only]. intros H. apply andb_true_iff in H as [Hc H].
  rewrite Hc, (IH H). reflexivity.
Qed.

Lemma numeral_needs_letter w :
  spacefree w = true ->
  forallb (fun c => negb (numeral_letter c)) w = true ->
  is_roman_numeral (clean_first_word w) = false.
Proof.
  intros Hsf Hw.
  destruct (is_roman_numeral (clean_first_word w)) eqn:E; [|reflexivity].
  apply (numeral_follows_token [w]) in E; [|repeat constructor; exact Hsf].
  cbn [hd] in E. rewrite clean_word in E by exact Hsf.
  rewrite forallb_forall in Hw.
  assert (Hex : exists c, In c (drop_trailing_punct w) /\ numeral_letter c = true).
  { repeat (destruct E as [<-|E];
            [eexists; split; [left; reflexivity | reflexivity]|]).
    destruct E. }
  destruct Hex as [c [Hin Hc]]. apply in_drop in Hin.
  specialize (Hw c Hin). rewrite Hc in Hw. discriminate Hw.
Qed.

(** X19: for a paragraph of one unstyled run holding the paragraph text,
    with at least two words, no capital I, V or X and no [<], the title is
    the first word in upper case without its trailing [,] and [:], and the
    body is the remaining words joined by single spaces, with each run of
    ":" and each run of "," reduced to one. *)
Theorem plain_paragraph :
  forall t w0 w1 rest,
    split t = w0 :: w1 :: rest ->
    forallb (fun c => negb (numeral_letter c)) t = true ->
    forallb (fun c => negb (c =? "<")%char) t = true ->
    process_paragraph
      (Paragraph.Build_t t [Run.Build_t t false false])
    = (clean_first_word (upper w0),
       sub_repeated ","%char
         (sub_repeated ":"%char (join (lit " ") (w1 :: rest)))).
Proof.
  intros t w0 w1 rest Hs Hnum Hlt.
  pose proof (split_words_shape t) as Hshape. rewrite Hs in Hshape.
  inversion Hshape as [|? ? _ Hshape1]; subst.
  inversion Hshape1 as [|? ? [_ Hsf1] _]; subst.
  assert (Hw1 : forallb (fun c => negb (numeral_letter c)) w1 = true).
  { apply forallb_forall. intros c Hc. rewrite forallb_forall in Hnum.
    apply Hnum. apply (in_split t w1 c); [rewrite Hs; right; left; reflexivity|].
    exact Hc. }
  assert (Hcl : classify w0 (w1 :: rest) = (clean_first_word (upper w0), 1, None)).
  { unfold classify. rewrite (numeral_needs_letter w1 Hsf1 Hw1). reflexivity. }
  assert (Hraw : process_runs (Paragraph.Build_t t [Run.Build_t t false false]) 1
                 = join (lit " ") (w1 :: rest)).
  { unfold process_runs. cbn [Paragraph.runs run_loop fold_left].
    rewrite RunFormatter.step_straddle
      by (cbn [words_processed init Run.text]; rewrite ?Hs; cbn; lia).
    cbn [words_processed set_words_processed init Run.text Nat.sub].
    rewrite Hs. cbn [skipn get_run_formatting Run.bold Run.italic andb].
    unfold append_run, flush.
    cbn [set_words_processed current_format init format_differs current_text
         formatted_text app truthy wrap concat].
    rewrite !app_nil_r. reflexivity. }
  assert (Hin : forall w, In w (w1 :: rest) -> In w (split t))
    by (intros w Hw; rewrite Hs; right; exact Hw).
  unfold process_paragraph. cbn [Paragraph.text].
  rewrite split_normalize, Hs, Hcl, Hraw. f_equal.
  assert (Hrom : sub_roman (join (lit " ") (w1 :: rest))
                 = join (lit " ") (w1 :: rest)).
  { apply PostPasses.sub_roman_fixed.
    apply (forallb_join_words _ t); [reflexivity | exact Hnum | exact Hin]. }
  assert (Htag : sub_tags (join (lit " ") (w1 :: rest))
                 = join (lit " ") (w1 :: rest)).
  { rewrite <- (app_nil_r (join (lit " ") (w1 :: rest))) at 1.
    rewrite Sanitizer.sub_tags_prefix; [apply app_nil_r|].
    apply no_lt_span_only.
    apply (forallb_join_words _ t); [reflexivity | exact Hlt | exact Hin]. }
  assert (Hnorm : normalize_text (join (lit " ") (w1 :: rest))
                  = join (lit " ") (w1 :: rest)).
  { rewrite normalize_join, split_join by exact Hshape1. reflexivity. }
  unfold post_process, reattach, sanitize. rewrite Hrom, Htag.
  unfold normalize_body.
  change (strip (sub_spaces (join (lit " ") (w1 :: rest))))
    with (normalize_text (join (lit " ") (w1 :: rest))).
  rewrite Hnorm. reflexivity.
Qed.

Lemma plain_paragraph_witness :
  process_paragraph
    (Paragraph.Build_t (lit "Overview, this is  the body")
       [Run.Build_t (lit "Overview, this is  the body") false false])
  = (lit "OVERVIEW", lit "this is the body").
Proof.
  exact (plain_paragraph (lit "Overview, this is  the body")
           (lit "Overview,") (lit "this") [lit "is"; lit "the"; lit "body"]
           eq_refl eq_refl eq_refl).
Defined.

(** *** One unstyled run, any label *)

Lemma forallb_join_concat P ws :
  P " "%char = true ->
  forallb P (concat ws) = true ->
  forallb P (join (lit " ") ws) = true.
Proof.
  intros Hsp H. apply forallb_forall. intros c Hc.
  rewrite forallb_forall in H.
  apply in_join in Hc as [Hc|[w [Hw Hc]]].
  - destruct Hc as [<-|[]]. exact Hsp.
  - apply H. apply in_concat. exists w. split; assumption.
Qed.

Lemma no_lt_no_span : forall s,
  forallb (fun c => negb (c =? "<")%char) s = true ->
  contains (lit "<span") s = false.
Proof.
  induction s as [|c s IH]; [reflexivity|].
  cbn [forallb]. intros H. apply andb_true_iff in H as [Hc H].
  apply negb_true_iff in Hc.
  cbn [contains lit list_ascii_of_string startswith].
  rewrite Ascii.eqb_sym, Hc. cbn [andb orb]. apply IH. exact H.
Qed.

Lemma skipn_shape {A} (P : A -> Prop) n (l : list A) :
  Forall P l -> Forall P (skipn n l).
Proof. apply WordFacts.skipn_Forall. Qed.

Lemma single_run_raw t skip words :
  split t = words -> 1 <= skip <= List.length words ->
  process_runs (Paragraph.Build_t t [Run.Build_t t false false]) skip
  = join (lit " ") (skipn skip words).
Proof.
  intros Hs [H1 H2]. unfold process_runs. cbn [Paragraph.runs].
  destruct (Nat.eq_dec skip (List.length words)) as [E|E].
  - rewrite RunFormatter.prefix_skipped
      by (unfold word_count, list_sum; cbn [map fold_right Run.text];
          rewrite Hs; lia).
    rewrite E, skipn_all. reflexivity.
  - cbn [run_loop fold_left].
    rewrite RunFormatter.step_straddle
      by (cbn [words_processed init Run.text]; rewrite ?Hs; lia).
    cbn [words_processed set_words_processed init Run.text].
    rewrite Hs, Nat.sub_0_r.
    cbn [get_run_formatting Run.bold Run.italic andb].
    unfold append_run, flush.
    cbn [set_words_processed current_format init format_differs current_text
         formatted_text app truthy wrap concat].
    rewrite !app_nil_r. reflexivity.
Qed.

(** X20: for a paragraph of one unstyled run holding the paragraph text,
    when the words left after the title have no capital I, V or X and no
    [<], the body is the detected punctuation mark, if any, and those
    words, joined by single spaces, with each run of ":" and each run of
    "," reduced to one.  The title, the number of title words and the mark
    are the ones the classification of the words gives. *)
Theorem single_run_paragraph :
  forall t w0 rest title skip punct,
    split t = w0 :: rest ->
    classify w0 rest = (title, skip, punct) ->
    forallb (fun c => negb (numeral_letter c))
      (concat (skipn skip (w0 :: rest))) = true ->
    forallb (fun c => negb (c =? "<")%char)
      (concat (skipn skip (w0 :: rest))) = true ->
    process_paragraph (Paragraph.Build_t t [Run.Build_t t false false])
    = (title,
       sub_repeated ","%char
         (sub_repeated ":"%char
            (join (lit " ")
               (match punct with
                | Some mark => mark :: skipn skip (w0 :: rest)
                | None => skipn skip (w0 :: rest)
                end)))).
Proof.
  intros t w0 rest title skip punct Hs Hcl Hnum Hlt.
  pose proof (classify_bounds w0 rest) as [[Hs1 _] [Hs2 [_ [Hp _]]]].
  rewrite Hcl in Hs1, Hs2, Hp. cbn [fst snd] in Hs1, Hs2, Hp.
  set (kept := skipn skip (w0 :: rest)) in *.
  assert (Hshape : Forall (fun w => w <> [] /\ spacefree w = true) kept).
  { subst kept. apply skipn_shape. rewrite <- Hs. apply split_words_shape. }
  assert (Hraw : process_runs (Paragraph.Build_t t [Run.Build_t t false false]) skip
                 = join (lit " ") kept).
  { apply single_run_raw; [exact Hs | cbn [List.length]; lia]. }
  assert (Hrom : sub_roman (join (lit " ") kept) = join (lit " ") kept).
  { apply PostPasses.sub_roman_fixed.
    apply forallb_join_concat; [reflexivity | exact Hnum]. }
  assert (Hlt' : forallb (fun c => negb (c =? "<")%char) (join (lit " ") kept) = true)
    by (apply forallb_join_concat; [reflexivity | exact Hlt]).
  assert (Htag : sub_tags (join (lit " ") kept) = join (lit " ") kept).
  { rewrite <- (app_nil_r (join (lit " ") kept)) at 1.
    rewrite Sanitizer.sub_tags_prefix; [apply app_nil_r|].
    apply no_lt_span_only. exact Hlt'. }
  assert (Hnorm : forall ws,
            Forall (fun w => w <> [] /\ spacefree w = true) ws ->
            normalize_text (join (lit " ") ws) = join (lit " ") ws).
  { intros ws Hws. rewrite normalize_join, split_join by exact Hws. reflexivity. }
  assert (Hbody : forall x, normalize_body x
            = sub_repeated ","%char (sub_repeated ":"%char (normalize_text x)))
    by reflexivity.
  unfold process_paragraph. cbn [Paragraph.text].
  rewrite split_normalize, Hs, Hcl, Hraw. f_equal.
  unfold post_process, sanitize. rewrite Hrom, Htag, Hbody. do 2 f_equal.
  destruct Hp as [-> | Hp].
  - cbn [reattach]. apply Hnorm. exact Hshape.
  - assert (Hmark : exists mark, punct = Some mark /\ truthy mark = true
                      /\ mark <> [] /\ spacefree mark = true).
    { destruct Hp as [-> | ->]; eexists; repeat split; discriminate. }
    destruct Hmark as [mark [-> [Ht [Hne Hsf]]]].
    unfold reattach. rewrite Ht, (no_lt_no_span _ Hlt').
    destruct kept as [|k ks] eqn:Ek.
    + cbn [join app].
      destruct Hp as [Hp | Hp]; injection Hp as ->; reflexivity.
    + change (mark ++ lit " " ++ join (lit " ") (k :: ks))
        with (join (lit " ") (mark :: k :: ks)).
      apply Hnorm. constructor; [split; assumption | exact Hshape].
Qed.

Lemma single_run_paragraph_witness :
  process_paragraph
    (Paragraph.Build_t (lit "Chapter IV: the  first  words")
       [Run.Build_t (lit "Chapter IV: the  first  words") false false])
  = (lit "CHAPTER IV", lit ": the first words").
Proof.
  exact (single_run_paragraph (lit "Chapter IV: the  first  words")
           (lit "Chapter") [lit "IV:"; lit "the"; lit "first"; lit "words"]
           (lit "CHAPTER IV") 2 (Some (lit ":"))
           eq_refl eq_refl eq_refl eq_refl).
Defined.

End PlainParagraph.

(* ================================================================== *)
(** ** A run that straddles the skip point *)

Module Straddle.
Import Py PyFacts WordFacts FormatProcessor DocumentProcessor Samples.
Import Specs Vocabulary RunFormatter RunGroups.

(** The state after the runs [pre], skipped whole, and the straddling
    run [r]: nothing is closed yet, and the accumulator holds the words of
    [r] after the skip point, joined by single spaces, in the style of
    [r]. *)
Lemma straddle_state pre r skip :
  word_count pre < skip ->
  skip < word_count pre + List.length (split (Run.text r)) ->
  core (run_loop skip (pre ++ [r]) init)
  = ([], get_run_formatting r,
     [join (lit " ") (skipn (skip - word_count pre) (split (Run.text r)))])
  /\ words_processed (run_loop skip (pre ++ [r]) init) = skip.
Proof.
  intros Hlt Hgt. rewrite run_loop_app, prefix_skipped by lia.
  change (run_loop skip [r] ?st) with (step skip st r).
  rewrite step_straddle by (cbn; lia).
  cbn [words_processed set_words_processed init].
  match goal with |- context [append_run ?f ?j ?st0] =>
    destruct (append_run_fresh f j st0 eq_refl eq_refl) as [A1 A2];
    pose proof (append_run_format f j st0) as A3;
    pose proof (append_run_words f j st0) as A4
  end.
  unfold core. rewrite A1, A2, A3, A4. split; reflexivity.
Qed.

(** C4: with skip_words = 2 and the runs "Chapter " and
    "IV Overview of the topic", "Chapter" and "IV" are consumed and the
    raw body (and the body of the paragraph) is "Overview of the topic".
    In general, when the runs [pre] hold fewer words than are skipped and
    the next run [r] holds more than the rest of the quota, the runs
    [pre] are consumed whole and of [r] only the words after the skip
    point are kept, joined by single spaces: if [r] is the last run, the
    result is exactly these words in the style of [r]; with further runs,
    it is the markup of these words and the kept later runs, grouped by
    style. *)
Theorem straddling_run_output :
  process_runs chapter_four 2 = lit "Overview of the topic"
  /\ process_paragraph chapter_four
     = (lit "CHAPTER IV", lit "Overview of the topic")
  /\ (forall t pre r skip,
        word_count pre < skip ->
        skip < word_count pre + List.length (split (Run.text r)) ->
        process_runs (Paragraph.Build_t t (pre ++ [r])) skip
        = wrap (get_run_formatting r)
            (join (lit " ")
               (skipn (skip - word_count pre) (split (Run.text r)))))
  /\ (forall t pre r rest skip,
        word_count pre < skip ->
        skip < word_count pre + List.length (split (Run.text r)) ->
        process_runs (Paragraph.Build_t t (pre ++ r :: rest)) skip
        = concat (map render
            (merge
               ((get_run_formatting r,
                 join (lit " ")
                   (skipn (skip - word_count pre) (split (Run.text r))))
                  :: pieces (Some (get_run_formatting r)) rest)))).
Proof.
  assert (General : forall t pre r rest skip,
            word_count pre < skip ->
            skip < word_count pre + List.length (split (Run.text r)) ->
            process_runs (Paragraph.Build_t t (pre ++ r :: rest)) skip
            = concat (map render
                (merge
                   ((get_run_formatting r,
                     join (lit " ")
                       (skipn (skip - word_count pre) (split (Run.text r))))
                      :: pieces (Some (get_run_formatting r)) rest)))).
  { intros t pre r rest skip Hlt Hgt. unfold process_runs. cbn [Paragraph.runs].
    replace (pre ++ r :: rest) with ((pre ++ [r]) ++ rest)
      by (rewrite <- app_assoc; reflexivity).
    rewrite (run_loop_app skip (pre ++ [r]) rest).
    destruct (straddle_state pre r skip Hlt Hgt) as [Hc Hw].
    unfold core in Hc. injection Hc as H1 H2 H3.
    rewrite loop_grouped by (rewrite ?Hw, ?H3; first [lia | reflexivity]).
    rewrite H1, H2, H3, concat_one. reflexivity. }
  split; [vm_compute; reflexivity|]. split; [vm_compute; reflexivity|].
  split; [|exact General].
  intros t pre r skip Hlt Hgt. rewrite (General t pre r [] skip Hlt Hgt).
  cbn [pieces merge map concat]. unfold render. cbn [fst snd].
  apply app_nil_r.
Qed.

Lemma straddling_run_output_witness :
  process_runs chapter_four 2
  = wrap None (join (lit " ") [lit "Overview"; lit "of"; lit "the"; lit "topic"]).
Proof.
  exact (proj1 (proj2 (proj2 straddling_run_output))
           (lit "Chapter IV Overview of the topic")
           [run "Chapter " false false]
           (run "IV Overview of the topic" false false) 2
           (le_n 2) (le_S _ _ (le_S _ _ (le_S _ _ (le_n 3))))).
Defined.

End Straddle.

(* ================================================================== *)
(** ** What becomes of the characters of the runs *)

Module Preservation.
Import Py Re PyFacts ReFacts WordFacts TextProcessor FormatProcessor.
Import DocumentProcessor Samples Specs Vocabulary NormalizeText Labels.
Import RunFormatter.

(** *** Reading one text off another *)


















(** *** Prefixes *)




(** *** The words of a text made of two parts *)

















(** *** The runs: skipped as title words, or kept in the raw body *)






(** *** The passes over the raw body *)





















End Preservation.
